(** * Tile cache and refresh-pause logic of Wplace-SkirkMarble

    Shallow embedding of the tile manager (cache-key derivation, the smart
    LRU cache, the frozen tile cache and the pause switch) together with the
    settings accessors it imports from [settingsManager.js].

    Conventions of the embedding
    - JavaScript integers are [Z]; strings are [string]; [null]/[undefined]
      is [None].
    - A JavaScript [Map] is an association list kept in insertion order with
      at most one entry per key (module [JsMap]).
    - [Date.now()] is an input of every operation that reads the clock.
    - The storage back ends ([GM_*Value], [localStorage]) are records of typed
      slots, a slot holding the value whose JSON text the code stores; storage
      calls do not throw.
    - The [async] wrapper around the host's [drawTemplateOnTile] has a single
      suspension point (the [await] on the captured function); it is split
      into the part before and the part after that point. *)

From Stdlib Require Import ZArith List String Ascii DecimalString Lia Bool.
From Stdlib Require Import Permutation OrderedTypeEx.
From Stdlib Require DecimalPos DecimalZ DecimalFacts Sorted.
Import ListNotations.

Local Open Scope string_scope.
Local Open Scope list_scope.
Local Open Scope Z_scope.

(** ** JavaScript primitives used by the tile manager *)

Module Js.

(** [Number.prototype.toString] on an integer. *)
Definition toString (n : Z) : string :=
  NilZero.string_of_int (Z.to_int n).

Fixpoint repeat0 (n : nat) : string :=
  match n with
  | O => EmptyString
  | S n' => String "0"%char (repeat0 n')
  end.

(** [s.padStart(width, '0')]. *)
Definition padStart (width : nat) (s : string) : string :=
  (repeat0 (width - String.length s) ++ s)%string.

(** [Array.prototype.sort()] without comparator on an array of strings:
    ascending by code unit.  The array is built by insertion from the
    right; for a total order on strings the result does not depend on the
    algorithm. *)
Fixpoint insertString (x : string) (l : list string) : list string :=
  match l with
  | [] => [x]
  | y :: l' => if String.leb x y then x :: l else y :: insertString x l'
  end.

Fixpoint sortStrings (l : list string) : list string :=
  match l with
  | [] => []
  | x :: l' => insertString x (sortStrings l')
  end.

(** [Array.prototype.join(sep)]. *)
Definition join (sep : string) (l : list string) : string :=
  String.concat sep l.

End Js.

(** ** Data handled by the tile manager *)

(** A [Blob]: its byte size, its MIME type and an opaque handle on its
    bytes. *)
Record Blob := mkBlob {
  size : Z;
  type : string;
  content : nat
}.

(** A tile value as it flows through the caches: a blob, or [None] for
    [null]/[undefined]. *)
Definition Tile := option Blob.

(** JavaScript truthiness of a tile value (an object is truthy). *)
Definition truthy (t : Tile) : bool :=
  match t with Some _ => true | None => false end.

(** [tileCoords] is either an array [[x, y]] of integers or a string. *)
Inductive Coords :=
| CoordsArray (x y : Z)
| CoordsString (s : string).

(** A template as seen by the key builder; an absent property is [None]. *)
Record Template := mkTemplate {
  name : option string;
  sortID : option Z;
  enabled : option bool
}.

(** ** Cache keys *)

(** The coordinate key computed identically at lines 83-85, 281-283,
    312-314 and 349-351. *)
Definition coordsKey (tileCoords : Coords) : string :=
  match tileCoords with
  | CoordsArray x y =>
      (Js.padStart 4 (Js.toString x) ++ "," ++ Js.padStart 4 (Js.toString y))%string
  | CoordsString s => s
  end.

(** [template.enabled !== false] *)
Definition isActive (t : Template) : bool :=
  match enabled t with
  | Some false => false
  | _ => true
  end.

(** [template.name || 'unnamed'] *)
Definition nameOrDefault (t : Template) : string :=
  match name t with
  | Some EmptyString | None => "unnamed"
  | Some n => n
  end.

(** [template.sortID || 0] *)
Definition sortIDOrDefault (t : Template) : Z :=
  match sortID t with
  | Some n => n
  | None => 0
  end.

(** The template literal [`${name}_${sortID}`]. *)
Definition templateLabel (t : Template) : string :=
  (nameOrDefault t ++ "_" ++ Js.toString (sortIDOrDefault t))%string.

Definition templateHash (templateArray : option (list Template)) : string :=
  match templateArray with
  | Some ((_ :: _) as ts) =>
      Js.join "|" (Js.sortStrings (map templateLabel (filter isActive ts)))
  | _ => ""
  end.

Definition contentHash (tileBlob : Tile) : string :=
  match tileBlob with
  | Some b =>
      if size b =? 0 then "nodata"
      else (Js.toString (size b) ++ "_" ++ type b)%string
  | None => "nodata"
  end.

Definition generateCacheKey (tileCoords : Coords)
    (templateArray : option (list Template)) (tileBlob : Tile) : string :=
  (coordsKey tileCoords ++ "_" ++ templateHash templateArray ++ "_"
     ++ contentHash tileBlob)%string.

(** ** JavaScript [Map] *)

Module JsMap.
Section Operations.
Context {V : Type}.

(** [m.set(k, v)]: an existing key keeps its place, a new key goes last. *)
Fixpoint set (k : string) (v : V) (m : list (string * V)) : list (string * V) :=
  match m with
  | [] => [(k, v)]
  | (k', v') :: m' =>
      if String.eqb k' k then (k', v) :: m' else (k', v') :: set k v m'
  end.

Fixpoint get (k : string) (m : list (string * V)) : option V :=
  match m with
  | [] => None
  | (k', v') :: m' => if String.eqb k' k then Some v' else get k m'
  end.

Definition has (k : string) (m : list (string * V)) : bool :=
  match get k m with Some _ => true | None => false end.

Definition delete (k : string) (m : list (string * V)) : list (string * V) :=
  filter (fun e => negb (String.eqb (fst e) k)) m.

Definition size (m : list (string * V)) : Z := Z.of_nat (List.length m).

Definition keys (m : list (string * V)) : list string := map fst m.

(** [m.keys().next().value] *)
Definition firstKey (m : list (string * V)) : option string :=
  match m with
  | [] => None
  | (k, _) :: _ => Some k
  end.
End Operations.
End JsMap.

(** [m.get(k)] as a tile value: [undefined] when the key is absent. *)
Definition getTile (k : string) (m : list (string * Tile)) : Tile :=
  match JsMap.get k m with
  | Some v => v
  | None => None
  end.

(** ** Settings storage ([settingsManager.js]) *)

(** The userscript-manager storage, when [GM_getValue]/[GM_setValue] exist. *)
Record GMStorage := mkGM {
  gm_bmTileRefreshPaused : option bool;
  gm_bmSmartTileCache : option bool
}.

Record LocalStorage := mkLS {
  ls_bmTileRefreshPaused : option bool;
  ls_bmSmartTileCache : option bool;
  ls_bmSmartTileCacheStats : option (Z * Z);   (* {hits, misses} *)
  ls_bmSmartTileCacheVersion : option string
}.

(** ** Module state of the tile manager *)

(** The functions that can sit in [templateManager.drawTemplateOnTile]. *)
Inductive DrawFn :=
| HostDraw          (* the host's own compositing method *)
| InitWrapper       (* the wrapper built at lines 261-294 *)
| PausedDraw        (* the paused version, lines 310-325 *)
| ResumedWrapper.   (* the wrapper built at lines 329-362 *)

(** How the promise awaited by a wrapper settles. *)
Inductive Outcome :=
| Resolved (result : Tile)
| Rejected (reason : string).

(** A wrapper suspended at its [await]: the locals it still needs, and the
    outcome when the captured function has already produced it. *)
Record Pending := mkPending {
  p_cacheKey : string;
  p_tileCoords : Coords;
  p_settled : option Outcome
}.

Record World := mkWorld {
  tileRefreshPaused : bool;
  originalDrawTemplateOnTile : option DrawFn;
  frozenTileCache : list (string * Tile);
  isCapturingState : bool;
  smartTileCacheEnabled : bool;
  smartTileCache : list (string * Tile);
  cacheAccessOrder : list (string * Z);
  cacheHits : Z;
  cacheMisses : Z;
  lastCanvasChangeTime : Z;
  (* the surroundings the module acts on *)
  drawTemplateOnTile : DrawFn;          (* templateManager.drawTemplateOnTile *)
  gmStorage : option GMStorage;         (* None: no GM_* functions *)
  localStorage : LocalStorage;
  inflight : list Pending               (* wrappers waiting at their await *)
}.

Definition maxCacheSize : Z := 500.
Definition cacheVersion : string := "1.0".

Definition set_tileRefreshPaused (b : bool) (w : World) : World :=
  let '(mkWorld _ o f c e s a h m t d g l i) := w in mkWorld b o f c e s a h m t d g l i.
Definition set_originalDrawTemplateOnTile (o : option DrawFn) (w : World) : World :=
  let '(mkWorld p _ f c e s a h m t d g l i) := w in mkWorld p o f c e s a h m t d g l i.
Definition set_frozenTileCache (f : list (string * Tile)) (w : World) : World :=
  let '(mkWorld p o _ c e s a h m t d g l i) := w in mkWorld p o f c e s a h m t d g l i.
Definition set_smartTileCacheEnabled (e : bool) (w : World) : World :=
  let '(mkWorld p o f c _ s a h m t d g l i) := w in mkWorld p o f c e s a h m t d g l i.
Definition set_smartTileCache (s : list (string * Tile)) (w : World) : World :=
  let '(mkWorld p o f c e _ a h m t d g l i) := w in mkWorld p o f c e s a h m t d g l i.
Definition set_cacheAccessOrder (a : list (string * Z)) (w : World) : World :=
  let '(mkWorld p o f c e s _ h m t d g l i) := w in mkWorld p o f c e s a h m t d g l i.
Definition set_cacheHits (h : Z) (w : World) : World :=
  let '(mkWorld p o f c e s a _ m t d g l i) := w in mkWorld p o f c e s a h m t d g l i.
Definition set_cacheMisses (m : Z) (w : World) : World :=
  let '(mkWorld p o f c e s a h _ t d g l i) := w in mkWorld p o f c e s a h m t d g l i.
Definition set_lastCanvasChangeTime (t : Z) (w : World) : World :=
  let '(mkWorld p o f c e s a h m _ d g l i) := w in mkWorld p o f c e s a h m t d g l i.
Definition set_drawTemplateOnTile (d : DrawFn) (w : World) : World :=
  let '(mkWorld p o f c e s a h m t _ g l i) := w in mkWorld p o f c e s a h m t d g l i.
Definition set_gmStorage (g : option GMStorage) (w : World) : World :=
  let '(mkWorld p o f c e s a h m t d _ l i) := w in mkWorld p o f c e s a h m t d g l i.
Definition set_localStorage (l : LocalStorage) (w : World) : World :=
  let '(mkWorld p o f c e s a h m t d g _ i) := w in mkWorld p o f c e s a h m t d g l i.
Definition set_inflight (i : list Pending) (w : World) : World :=
  let '(mkWorld p o f c e s a h m t d g l _) := w in mkWorld p o f c e s a h m t d g l i.

(** The state right after the module is loaded (lines 10-23), in a host
    whose storage holds [g] and [l]. *)
Definition moduleLoaded (g : option GMStorage) (l : LocalStorage) : World :=
  mkWorld false None [] false true [] [] 0 0 0 HostDraw g l [].

Definition emptyLocalStorage : LocalStorage := mkLS None None None None.

(** *** Settings accessors *)

Definition getTileRefreshPaused (w : World) : bool :=
  let pausedState :=
    match gmStorage w with
    | Some g => gm_bmTileRefreshPaused g
    | None => None
    end in
  let pausedState :=
    match pausedState with
    | None => ls_bmTileRefreshPaused (localStorage w)
    | Some _ => pausedState
    end in
  match pausedState with
  | Some b => b
  | None => false
  end.

(** The cache invalidation the save functions schedule through a dynamic
    import runs later, as an event of its own ([EvInvalidate] below). *)
Definition saveTileRefreshPaused (paused : bool) (w : World) : World :=
  let w :=
    match gmStorage w with
    | Some g => set_gmStorage (Some (mkGM (Some paused) (gm_bmSmartTileCache g))) w
    | None => w
    end in
  let l := localStorage w in
  set_localStorage
    (mkLS (Some paused) (ls_bmSmartTileCache l) (ls_bmSmartTileCacheStats l)
       (ls_bmSmartTileCacheVersion l)) w.

Definition getSmartTileCacheEnabled (w : World) : bool :=
  let cacheEnabled :=
    match gmStorage w with
    | Some g => gm_bmSmartTileCache g
    | None => None
    end in
  let cacheEnabled :=
    match cacheEnabled with
    | None => ls_bmSmartTileCache (localStorage w)
    | Some _ => cacheEnabled
    end in
  match cacheEnabled with
  | Some b => b
  | None => true
  end.

Definition saveSmartTileCacheEnabled (enabled : bool) (w : World) : World :=
  let w :=
    match gmStorage w with
    | Some g => set_gmStorage (Some (mkGM (gm_bmTileRefreshPaused g) (Some enabled))) w
    | None => w
    end in
  let l := localStorage w in
  set_localStorage
    (mkLS (ls_bmTileRefreshPaused l) (Some enabled) (ls_bmSmartTileCacheStats l)
       (ls_bmSmartTileCacheVersion l)) w.

(** ** The smart tile cache *)

(** [Array.prototype.sort((a, b) => a[1] - b[1])] on ledger entries.  The
    sort is stable; built by insertion from the right, an entry goes in front
    of the first later entry whose time is not smaller. *)
Fixpoint insertByTime (e : string * Z) (l : list (string * Z)) : list (string * Z) :=
  match l with
  | [] => [e]
  | e' :: l' =>
      if snd e - snd e' <=? 0 then e :: l else e' :: insertByTime e l'
  end.

Fixpoint sortByTime (l : list (string * Z)) : list (string * Z) :=
  match l with
  | [] => []
  | e :: l' => insertByTime e (sortByTime l')
  end.

(** [a.slice(0, n)]; a negative [n] counts from the end. *)
Definition slice0 {A : Type} (n : Z) (a : list A) : list A :=
  if n <? 0 then firstn (List.length a - Z.to_nat (- n)) a
  else firstn (Z.to_nat n) a.

Definition updateCacheAccess (key : string) (now : Z) (w : World) : World :=
  set_cacheAccessOrder (JsMap.set key now (cacheAccessOrder w)) w.

(** One turn of the loop at lines 128-131. *)
Definition evictEntry (w : World) (e : string * Z) : World :=
  let w := set_smartTileCache (JsMap.delete (fst e) (smartTileCache w)) w in
  set_cacheAccessOrder (JsMap.delete (fst e) (cacheAccessOrder w)) w.

Definition evictLRUEntries (w : World) : World :=
  if JsMap.size (smartTileCache w) <=? maxCacheSize then w
  else
    let sortedEntries := sortByTime (cacheAccessOrder w) in
    let entriesToRemove :=
      slice0 (JsMap.size (smartTileCache w) - maxCacheSize + 10) sortedEntries in
    fold_left evictEntry entriesToRemove w.

Definition saveCacheStatistics (w : World) : World :=
  let l := localStorage w in
  set_localStorage
    (mkLS (ls_bmTileRefreshPaused l) (ls_bmSmartTileCache l)
       (Some (cacheHits w, cacheMisses w)) (ls_bmSmartTileCacheVersion l)) w.

Definition storeInSmartCache (cacheKey : string) (processedTile : Tile)
    (now : Z) (w : World) : World :=
  if negb (smartTileCacheEnabled w) then w
  else
    let w := set_smartTileCache (JsMap.set cacheKey processedTile (smartTileCache w)) w in
    let w := updateCacheAccess cacheKey now w in
    let w := evictLRUEntries w in
    if Z.rem (cacheHits w + cacheMisses w) 50 =? 0 then saveCacheStatistics w
    else w.

(** Returns the cached value ([None] for [null]) and the new state. *)
Definition getFromSmartCache (cacheKey : string) (now : Z) (w : World)
    : Tile * World :=
  if negb (smartTileCacheEnabled w) then (None, w)
  else if JsMap.has cacheKey (smartTileCache w) then
    let w := updateCacheAccess cacheKey now w in
    let w := set_cacheHits (cacheHits w + 1) w in
    (getTile cacheKey (smartTileCache w), w)
  else (None, set_cacheMisses (cacheMisses w + 1) w).

Definition clearSmartTileCache (w : World) : World :=
  let w := set_smartTileCache [] w in
  let w := set_cacheAccessOrder [] w in
  let w := set_cacheHits 0 w in
  let w := set_cacheMisses 0 w in
  saveCacheStatistics w.

Definition initializeSmartTileCache (w : World) : World :=
  let w := set_smartTileCacheEnabled (getSmartTileCacheEnabled w) w in
  let storedVersion := ls_bmSmartTileCacheVersion (localStorage w) in
  let w :=
    match storedVersion with
    | Some v =>
        if String.eqb v cacheVersion then w
        else
          let w := clearSmartTileCache w in
          let l := localStorage w in
          set_localStorage
            (mkLS (ls_bmTileRefreshPaused l) (ls_bmSmartTileCache l)
               (ls_bmSmartTileCacheStats l) (Some cacheVersion)) w
    | None =>
        let w := clearSmartTileCache w in
        let l := localStorage w in
        set_localStorage
          (mkLS (ls_bmTileRefreshPaused l) (ls_bmSmartTileCache l)
             (ls_bmSmartTileCacheStats l) (Some cacheVersion)) w
    end in
  let stats :=
    match ls_bmSmartTileCacheStats (localStorage w) with
    | Some s => s
    | None => (0, 0)
    end in
  let w := set_cacheHits (fst stats) w in
  set_cacheMisses (snd stats) w.

(** Returns the new cache state and the new world. *)
Definition toggleSmartTileCache (w : World) : bool * World :=
  let w := set_smartTileCacheEnabled (negb (smartTileCacheEnabled w)) w in
  let w := saveSmartTileCacheEnabled (smartTileCacheEnabled w) w in
  let w := if negb (smartTileCacheEnabled w) then clearSmartTileCache w else w in
  (smartTileCacheEnabled w, w).

Definition invalidateCacheForSettingsChange (w : World) : World :=
  if smartTileCacheEnabled w && (0 <? JsMap.size (smartTileCache w))
  then clearSmartTileCache w
  else w.

Definition notifyCanvasChange (now : Z) (w : World) : World :=
  set_lastCanvasChangeTime now w.

(** ** The frozen tile cache and the pause switch *)

(** Lines 281-291 and 349-358: remember the result for the tile and keep at
    most 100 tiles. *)
Definition storeFrozen (tileCoords : Coords) (result : Tile) (w : World) : World :=
  let tileKey := coordsKey tileCoords in
  let w := set_frozenTileCache (JsMap.set tileKey result (frozenTileCache w)) w in
  if 100 <? JsMap.size (frozenTileCache w) then
    match JsMap.firstKey (frozenTileCache w) with
    | Some firstKey =>
        set_frozenTileCache (JsMap.delete firstKey (frozenTileCache w)) w
    | None => w
    end
  else w.

(** The paused version of [drawTemplateOnTile] (lines 310-325). *)
Definition pausedDraw (tileBlob : Tile) (tileCoords : Coords) (w : World) : Tile :=
  let tileKey := coordsKey tileCoords in
  if JsMap.has tileKey (frozenTileCache w) then getTile tileKey (frozenTileCache w)
  else tileBlob.

(** What a call of [templateManager.drawTemplateOnTile] does up to its
    return or its suspension. *)
Inductive DrawStep :=
| Returned (result : Tile) (w : World)
    (* returned without calling the captured function *)
| Awaiting (p : Pending) (w : World)
    (* the captured function has been called; suspended at the await *)
| HostRuns (w : World).
    (* the slot holds the host's own method, which runs by itself *)

(** [originalDrawTemplateOnTile(tileBlob, tileCoords)]: the host's method
    settles later; a captured paused version (the slot held it if the pause
    was toggled before the first initialisation) returns at once; calling
    [null] throws.  Nothing else is ever captured ([sw_captured] below). *)
Definition callOriginal (tileBlob : Tile) (tileCoords : Coords) (w : World)
    : option Outcome :=
  match originalDrawTemplateOnTile w with
  | Some PausedDraw => Some (Resolved (pausedDraw tileBlob tileCoords w))
  | Some _ => None
  | None => Some (Rejected "TypeError")
  end.

(** A wrapper up to its [await]; [probe] is the condition guarding the
    cache lookup (line 266 or line 334). *)
Definition wrapperBegin (probe : bool) (tileBlob : Tile) (tileCoords : Coords)
    (templatesArray : option (list Template)) (now : Z) (w : World) : DrawStep :=
  let cacheKey := generateCacheKey tileCoords templatesArray tileBlob in
  let suspend w :=
    Awaiting (mkPending cacheKey tileCoords (callOriginal tileBlob tileCoords w)) w in
  if probe then
    let '(cachedResult, w) := getFromSmartCache cacheKey now w in
    if truthy cachedResult then Returned cachedResult w else suspend w
  else suspend w.

(** A wrapper from its [await] on (lines 274-293 and 342-361). *)
Definition wrapperEnd (p : Pending) (o : Outcome) (now : Z) (w : World)
    : Outcome * World :=
  match o with
  | Rejected reason => (Rejected reason, w)
  | Resolved result =>
      if negb (tileRefreshPaused w) && negb (isCapturingState w)
         && smartTileCacheEnabled w
      then
        let w := storeInSmartCache (p_cacheKey p) result now w in
        (Resolved result, storeFrozen (p_tileCoords p) result w)
      else (Resolved result, w)
  end.

(** Calling whatever function sits in the slot. *)
Definition callDraw (fn : DrawFn) (tileBlob : Tile) (tileCoords : Coords)
    (templatesArray : option (list Template)) (now : Z) (w : World) : DrawStep :=
  match fn with
  | HostDraw => HostRuns w
  | PausedDraw => Returned (pausedDraw tileBlob tileCoords w) w
  | InitWrapper =>
      wrapperBegin (negb (tileRefreshPaused w) && smartTileCacheEnabled w)
        tileBlob tileCoords templatesArray now w
  | ResumedWrapper =>
      wrapperBegin (smartTileCacheEnabled w)
        tileBlob tileCoords templatesArray now w
  end.

Definition applyTileRefreshPause (w : World) : World :=
  if tileRefreshPaused w then set_drawTemplateOnTile PausedDraw w
  else
    match originalDrawTemplateOnTile w with
    | Some _ => set_drawTemplateOnTile ResumedWrapper w
    | None => w
    end.

Definition initializeTileRefreshPause (w : World) : World :=
  let w := initializeSmartTileCache w in
  let w := set_tileRefreshPaused (getTileRefreshPaused w) w in
  let w :=
    match originalDrawTemplateOnTile w with
    | None =>
        let w := set_originalDrawTemplateOnTile (Some (drawTemplateOnTile w)) w in
        set_drawTemplateOnTile InitWrapper w
    | Some _ => w
    end in
  applyTileRefreshPause w.

Definition toggleTileRefreshPause (w : World) : bool * World :=
  let w := set_tileRefreshPaused (negb (tileRefreshPaused w)) w in
  let w := saveTileRefreshPaused (tileRefreshPaused w) w in
  let w := applyTileRefreshPause w in
  (tileRefreshPaused w, w).

Definition isTileRefreshPaused (w : World) : bool := tileRefreshPaused w.

Definition getCachedTileCount (w : World) : Z := JsMap.size (frozenTileCache w).

Definition clearFrozenTileCache (w : World) : World := set_frozenTileCache [] w.

(** ** Runs of the module *)

(** What the host and the scheduler can make happen. *)
Inductive Event :=
| EvInitialize
| EvTogglePause
| EvToggleCache
| EvInvalidate
| EvNotifyCanvasChange (now : Z)
| EvClearFrozen
| EvDraw (tileBlob : Tile) (tileCoords : Coords)
    (templatesArray : option (list Template)) (now : Z)
| EvSettle (i : nat) (o : Outcome) (now : Z).

Fixpoint removeNth {A : Type} (i : nat) (l : list A) : list A :=
  match i, l with
  | _, [] => []
  | O, _ :: l' => l'
  | S i', x :: l' => x :: removeNth i' l'
  end.

Definition step (w : World) (ev : Event) : World :=
  match ev with
  | EvInitialize => initializeTileRefreshPause w
  | EvTogglePause => snd (toggleTileRefreshPause w)
  | EvToggleCache => snd (toggleSmartTileCache w)
  | EvInvalidate => invalidateCacheForSettingsChange w
  | EvNotifyCanvasChange now => notifyCanvasChange now w
  | EvClearFrozen => clearFrozenTileCache w
  | EvDraw tileBlob tileCoords templatesArray now =>
      match callDraw (drawTemplateOnTile w) tileBlob tileCoords templatesArray now w with
      | Returned _ w' => w'
      | Awaiting p w' => set_inflight (inflight w' ++ [p]) w'
      | HostRuns w' => w'
      end
  | EvSettle i o now =>
      match nth_error (inflight w) i with
      | Some p =>
          let o := match p_settled p with Some o' => o' | None => o end in
          snd (wrapperEnd p o now (set_inflight (removeNth i (inflight w)) w))
      | None => w
      end
  end.

Definition run (w : World) (evs : list Event) : World := fold_left step evs w.

(** The worlds the module can be in. *)
Definition reachable (w : World) : Prop :=
  exists g l evs, w = run (moduleLoaded g l) evs.

(** * Notions used to state the properties *)

(** ** Removing keys *)

(** [keptKey ks k]: the key [k] is not among [ks]. *)
Definition keptKey (ks : list string) (k : string) : bool :=
  negb (existsb (fun k' => String.eqb k k') ks).

(** Deleting the keys [ks] from a map one after the other, as the loop of
    [evictLRUEntries] does on both maps. *)
Definition removeKeys {V : Type} (ks : list string) (m : list (string * V))
    : list (string * V) :=
  fold_left (fun m k => JsMap.delete k m) ks m.

(** The keys [evictLRUEntries] removes from a cache of more than
    [maxCacheSize] entries. *)
Definition evictedKeys (w : World) : list string :=
  map fst (slice0 (JsMap.size (smartTileCache w) - maxCacheSize + 10)
             (sortByTime (cacheAccessOrder w))).

(** ** The cache and its ledger *)

(** The ledger has an entry for exactly the keys of the cache, in the same
    order. *)
Definition ledgerMatches (w : World) : Prop :=
  JsMap.keys (smartTileCache w) = JsMap.keys (cacheAccessOrder w).

(** The ledger and the cache hold the same keys, in the same order, once
    each, and the cache is within its capacity. *)
Record lruOk (w : World) : Prop := mkLruOk {
  lru_keys : JsMap.keys (smartTileCache w) = JsMap.keys (cacheAccessOrder w);
  lru_nodup : NoDup (JsMap.keys (smartTileCache w));
  lru_size : JsMap.size (smartTileCache w) <= maxCacheSize
}.

(** A put request: the key, the tile and the clock reading at the call. *)
Definition Put : Type := string * Tile * Z.
Definition putKey (p : Put) : string := fst (fst p).
Definition putTile (p : Put) : Tile := snd (fst p).
Definition putTime (p : Put) : Z := snd p.


(** A sequence of puts with nothing in between. *)
Definition putAll (puts : list Put) (w : World) : World :=
  fold_left (fun w p => storeInSmartCache (putKey p) (putTile p) (putTime p) w) puts w.



(** ** Template labels *)

(** The labels that enter the template hash. *)
Definition activeLabels (ts : list Template) : list string :=
  map templateLabel (filter isActive ts).

(** The string does not contain the separator ["|"]. *)
Fixpoint noBar (s : string) : bool :=
  match s with
  | EmptyString => true
  | String c s' => negb (Ascii.eqb c "|"%char) && noBar s'
  end.

Definition plainLabel (s : string) : Prop := noBar s = true /\ s <> EmptyString.

(** Two templates that differ at most in their [enabled] property. *)
Definition sameIdentity (a b : Template) : Prop :=
  name a = name b /\ sortID a = sortID b.

(** ** Draw steps and switches *)

(** The world a draw step leaves behind. *)
Definition afterDraw (d : DrawStep) : World :=
  match d with
  | Returned _ w | Awaiting _ w | HostRuns w => w
  end.

(** Whether a draw step called the captured compositing function (or ran
    the host's method directly). *)
Definition invokesCompositing (d : DrawStep) : bool :=
  match d with
  | Returned _ _ => false
  | Awaiting _ _ | HostRuns _ => true
  end.

(** The switches of the module: everything that decides which function
    answers a draw request and whether the cache is in use. *)
Definition switches (w : World) :=
  (tileRefreshPaused w, originalDrawTemplateOnTile w, isCapturingState w,
   smartTileCacheEnabled w, drawTemplateOnTile w, gmStorage w,
   ls_bmSmartTileCache (localStorage w), inflight w).

(** What every run keeps true of the switches. *)
Record switchOk (w : World) : Prop := mkSwitchOk {
  (* while paused, the slot holds the paused version *)
  sw_paused : tileRefreshPaused w = true -> drawTemplateOnTile w = PausedDraw;
  (* a cache that is switched off is empty *)
  sw_off : smartTileCacheEnabled w = false -> smartTileCache w = [];
  (* once initialised, the stored setting agrees with the flag *)
  sw_saved : originalDrawTemplateOnTile w <> None ->
             getSmartTileCacheEnabled w = smartTileCacheEnabled w;
  (* before initialisation nothing has been cached and no wrapper exists *)
  sw_before : originalDrawTemplateOnTile w = None ->
              smartTileCache w = [] /\ inflight w = []
              /\ (drawTemplateOnTile w = HostDraw \/ drawTemplateOnTile w = PausedDraw);
  (* the captured function is the host's method or the paused version *)
  sw_captured : forall fn, originalDrawTemplateOnTile w = Some fn ->
                fn = HostDraw \/ fn = PausedDraw
}.

(** The frozen tile cache has one entry per key and at most 100 of them. *)
Record frozenOk (w : World) : Prop := mkFrozenOk {
  fr_nodup : NoDup (JsMap.keys (frozenTileCache w));
  fr_size : JsMap.size (frozenTileCache w) <= 100
}.

(** ** Sample inputs *)

Definition sampleBlob : Tile := Some (mkBlob 100 "image/png" 0).
Definition sampleComposite : Tile := Some (mkBlob 180 "image/png" 7).

Definition templateA (on : bool) : Template :=
  mkTemplate (Some "A"%string) (Some 1) (Some on).
Definition templateB (on : bool) : Template :=
  mkTemplate (Some "B"%string) (Some 2) (Some on).

(** Two lists of the same three templates, enabled differently, on which
    the key builder collides. *)
Definition collidingA : list Template :=
  [ mkTemplate (Some "A_1|B"%string) (Some 2) (Some true);
    mkTemplate (Some "A"%string) (Some 1) (Some false);
    mkTemplate (Some "B"%string) (Some 2) (Some false) ].

Definition collidingB : list Template :=
  [ mkTemplate (Some "A_1|B"%string) (Some 2) (Some false);
    mkTemplate (Some "A"%string) (Some 1) (Some true);
    mkTemplate (Some "B"%string) (Some 2) (Some true) ].

(** Tile [(n, 0)] is drawn, missed, composited and stored. *)
Definition drawAndSettle (n : nat) : list Event :=
  [ EvDraw sampleBlob (CoordsArray (Z.of_nat n) 0) None 1000;
    EvSettle 0 (Resolved (Some (mkBlob 120 "image/png" (S n)))) 1001 ].


(** A run that composites tile (12, 7) once and then pauses. *)
Definition pausedRun : list Event :=
  [ EvInitialize;
    EvDraw sampleBlob (CoordsArray 12 7) None 1000;
    EvSettle 0 (Resolved sampleComposite) 1001;
    EvTogglePause ].



(** A check that a list of keys has no repetition. *)
Fixpoint distinctKeys (ks : list string) : bool :=
  match ks with
  | [] => true
  | k :: ks' => negb (existsb (String.eqb k) ks') && distinctKeys ks'
  end.

(** ** Notions for the further properties *)

(** The string does not contain the character [c]. *)
Fixpoint lacks (c : ascii) (s : string) : bool :=
  match s with
  | EmptyString => true
  | String d s' => negb (Ascii.eqb d c) && lacks c s'
  end.

(** The string without its leading ["0"] characters. *)
Fixpoint strip0 (s : string) : string :=
  match s with
  | String "0"%char s' => strip0 s'
  | _ => s
  end.

(** Ledger entries compared by access time. *)
Definition byTime (a b : string * Z) : Prop := snd a <= snd b.

(** Once initialised, the slot holds the paused version while paused and
    the resumed wrapper otherwise; the capturing flag is down. *)
Record liveOk (w : World) : Prop := mkLiveOk {
  live_slot : originalDrawTemplateOnTile w <> None ->
              drawTemplateOnTile w
              = if tileRefreshPaused w then PausedDraw else ResumedWrapper;
  live_capturing : isCapturingState w = false
}.

(** The host's method is neither in the slot nor captured. *)
Record hostUnreachable (w : World) : Prop := mkHostUnreachable {
  hu_slot : drawTemplateOnTile w <> HostDraw;
  hu_captured : forall fn, originalDrawTemplateOnTile w = Some fn -> fn = PausedDraw;
  hu_before : originalDrawTemplateOnTile w = None -> drawTemplateOnTile w = PausedDraw
}.

(** Whether the function in the slot looks the request up in the smart
    cache (lines 266 and 334). *)
Definition probes (w : World) : bool :=
  smartTileCacheEnabled w
  && match drawTemplateOnTile w with
     | InitWrapper => negb (tileRefreshPaused w)
     | ResumedWrapper => true
     | HostDraw | PausedDraw => false
     end.

(** The ledger entries accessed strictly before time [t]. *)
Definition olderThan (t : Z) (ledger : list (string * Z)) : list (string * Z) :=
  filter (fun e => snd e <? t) ledger.

(** The module loaded again in a host that kept the storage of [w]: a
    restart of the page. *)
Definition restarted (w : World) : World :=
  initializeTileRefreshPause (moduleLoaded (gmStorage w) (localStorage w)).

(** ** Further sample inputs *)

(** A run that fills the cache with 500 tiles, all stored at time 1001. *)
Definition fullRun : list Event :=
  EvInitialize :: flat_map drawAndSettle (seq 0 500).

(** The state inside a put of the new key ["late"] at time 2000 into the
    full cache, right before the eviction. *)
Definition overfullWorld : World :=
  let w := run (moduleLoaded None emptyLocalStorage) fullRun in
  updateCacheAccess "late" 2000
    (set_smartTileCache (JsMap.set "late" sampleComposite (smartTileCache w)) w).

(** A run that initialises and leaves one compositing call in flight. *)
Definition inflightRun : list Event :=
  [EvInitialize; EvDraw sampleBlob (CoordsArray 12 7) None 1000].

(** * Properties *)

(** ** Facts about [JsMap] *)

Section JsMapFacts.
Context {V : Type}.
Implicit Types (m : list (string * V)) (k : string).

Lemma has_false_not_in k m :
  JsMap.has k m = false -> ~ In k (JsMap.keys m).
Proof.
  unfold JsMap.has. induction m as [|[k' v'] m IH]; simpl; [tauto|].
  destruct (String.eqb_spec k' k) as [->|Hne]; [discriminate|].
  intros H [Hk|Hk]; [congruence | exact (IH H Hk)].
Qed.

Lemma has_true_in k m :
  JsMap.has k m = true -> In k (JsMap.keys m).
Proof.
  unfold JsMap.has. induction m as [|[k' v'] m IH]; simpl; [discriminate|].
  destruct (String.eqb_spec k' k) as [->|Hne]; [now left|].
  intros H. right. exact (IH H).
Qed.

Lemma not_in_has_false k m :
  ~ In k (JsMap.keys m) -> JsMap.has k m = false.
Proof.
  intros H. destruct (JsMap.has k m) eqn:E; [|reflexivity].
  elim H. now apply has_true_in.
Qed.

Lemma set_present k v m :
  JsMap.has k m = true -> JsMap.keys (JsMap.set k v m) = JsMap.keys m.
Proof.
  unfold JsMap.has. induction m as [|[k' v'] m IH]; simpl; [discriminate|].
  destruct (String.eqb_spec k' k) as [->|Hne]; simpl; [reflexivity|].
  intros H. f_equal. exact (IH H).
Qed.

Lemma set_absent k v m :
  JsMap.has k m = false -> JsMap.set k v m = m ++ [(k, v)].
Proof.
  unfold JsMap.has. induction m as [|[k' v'] m IH]; simpl; [reflexivity|].
  destruct (String.eqb_spec k' k) as [->|Hne]; simpl; [discriminate|].
  intros H. f_equal. exact (IH H).
Qed.

Lemma keys_set k v m :
  JsMap.keys (JsMap.set k v m)
  = if JsMap.has k m then JsMap.keys m else JsMap.keys m ++ [k].
Proof.
  destruct (JsMap.has k m) eqn:E.
  - now apply set_present.
  - rewrite set_absent by exact E. unfold JsMap.keys. now rewrite map_app.
Qed.

Lemma length_set_le k v m :
  (List.length (JsMap.set k v m) <= S (List.length m))%nat.
Proof.
  induction m as [|[k' v'] m IH]; simpl; [lia|].
  destruct (String.eqb k' k); simpl; lia.
Qed.

Lemma NoDup_keys_set k v m :
  NoDup (JsMap.keys m) -> NoDup (JsMap.keys (JsMap.set k v m)).
Proof.
  intros H. rewrite keys_set. destruct (JsMap.has k m) eqn:E; [exact H|].
  apply NoDup_rev in H. rewrite <- (rev_involutive (_ ++ _)).
  apply NoDup_rev. rewrite rev_app_distr. simpl. constructor; [|exact H].
  rewrite <- in_rev. now apply has_false_not_in.
Qed.

Lemma keys_delete k m :
  JsMap.keys (JsMap.delete k m)
  = filter (fun k' => negb (String.eqb k' k)) (JsMap.keys m).
Proof.
  induction m as [|[k' v'] m IH]; simpl; [reflexivity|].
  destruct (String.eqb k' k); simpl; now rewrite IH.
Qed.

Lemma length_keys m : List.length (JsMap.keys m) = List.length m.
Proof. apply length_map. Qed.

Lemma get_set_same k v m : JsMap.get k (JsMap.set k v m) = Some v.
Proof.
  induction m as [|[k' v'] m IH]; simpl.
  - now rewrite String.eqb_refl.
  - destruct (String.eqb k' k) eqn:E; simpl; rewrite E; auto.
Qed.

Lemma delete_head_NoDup k v m :
  NoDup (JsMap.keys ((k, v) :: m)) -> JsMap.delete k ((k, v) :: m) = m.
Proof.
  simpl. rewrite String.eqb_refl. simpl. intros H.
  apply NoDup_cons_iff in H. destruct H as [Hk _].
  induction m as [|[k' v'] m IH]; simpl; [reflexivity|].
  destruct (String.eqb_spec k' k) as [->|Hne]; simpl.
  - elim Hk. now left.
  - f_equal. apply IH. intros Hin. apply Hk. now right.
Qed.
End JsMapFacts.

(** Two maps with the same keys still have the same keys after the same key
    is set in both. *)
Lemma keys_set_both {V1 V2 : Type} (k : string) (v1 : V1) (v2 : V2)
    (m1 : list (string * V1)) (m2 : list (string * V2)) :
  JsMap.keys m1 = JsMap.keys m2 ->
  JsMap.keys (JsMap.set k v1 m1) = JsMap.keys (JsMap.set k v2 m2).
Proof.
  revert m2. induction m1 as [|[k1 x1] m1 IH]; intros [|[k2 x2] m2]; simpl;
    try discriminate; [reflexivity|].
  intros H. injection H as -> H.
  destruct (String.eqb k2 k); simpl; f_equal; auto.
Qed.

(** ** Removing a list of keys *)

Lemma filter_filter {A : Type} (f g : A -> bool) (l : list A) :
  filter f (filter g l) = filter (fun x => g x && f x) l.
Proof.
  induction l as [|x l IH]; simpl; [reflexivity|].
  destruct (g x); simpl; [destruct (f x)|]; now rewrite IH.
Qed.

Lemma length_filter_without (k : string) (l : list string) :
  NoDup l -> In k l ->
  S (List.length (filter (fun k' => negb (String.eqb k' k)) l)) = List.length l.
Proof.
  induction l as [|x l IH]; simpl; [tauto|].
  intros Hnd Hin. apply NoDup_cons_iff in Hnd. destruct Hnd as [Hx Hnd].
  destruct (String.eqb_spec x k) as [->|Hne]; simpl.
  - f_equal. clear IH Hin Hnd. induction l as [|y l IH]; simpl; [reflexivity|].
    destruct (String.eqb_spec y k) as [->|Hy]; simpl.
    + elim Hx. now left.
    + f_equal. apply IH. intros H. apply Hx. now right.
  - f_equal. apply IH; [exact Hnd|]. destruct Hin; [congruence|assumption].
Qed.

Lemma length_filter_kept (ks l : list string) :
  NoDup l -> NoDup ks -> incl ks l ->
  (List.length (filter (keptKey ks) l) + List.length ks = List.length l)%nat.
Proof.
  revert l. induction ks as [|k ks IH]; intros l Hl Hks Hincl.
  - simpl. rewrite (filter_ext (keptKey []) (fun _ => true)) by reflexivity.
    clear. induction l; simpl; lia.
  - apply NoDup_cons_iff in Hks. destruct Hks as [Hk Hks].
    assert (Hin : In k l) by (apply Hincl; now left).
    assert (Hincl' : incl ks l) by (intros x Hx; apply Hincl; now right).
    specialize (IH l Hl Hks Hincl').
    assert (E : filter (keptKey (k :: ks)) l
                = filter (fun k' => negb (String.eqb k' k)) (filter (keptKey ks) l)).
    { rewrite filter_filter. apply filter_ext. intros x. unfold keptKey. simpl.
      destruct (String.eqb x k), (existsb (fun k' => String.eqb x k') ks); reflexivity. }
    rewrite E.
    assert (Hin' : In k (filter (keptKey ks) l)).
    { apply filter_In. split; [exact Hin|]. unfold keptKey.
      destruct (existsb (fun k' => String.eqb k k') ks) eqn:Ex; [|reflexivity].
      apply existsb_exists in Ex. destruct Ex as [y [Hy Hky]].
      apply String.eqb_eq in Hky. subst y. contradiction. }
    pose proof (length_filter_without k (filter (keptKey ks) l)
                  (NoDup_filter _ Hl) Hin') as Hlen.
    simpl. lia.
Qed.

Lemma removeKeys_filter {V : Type} (ks : list string) (m : list (string * V)) :
  removeKeys ks m = filter (fun e => keptKey ks (fst e)) m.
Proof.
  revert m. induction ks as [|k ks IH]; intros m.
  - simpl. induction m as [|e m IHm]; simpl; [reflexivity|]. now f_equal.
  - unfold removeKeys in *. simpl. rewrite IH. unfold JsMap.delete.
    rewrite filter_filter. apply filter_ext. intros [k' v]. unfold keptKey. simpl.
    destruct (String.eqb k' k); reflexivity.
Qed.

Lemma keys_filter_fst {V : Type} (f : string -> bool) (m : list (string * V)) :
  JsMap.keys (filter (fun e => f (fst e)) m) = filter f (JsMap.keys m).
Proof.
  induction m as [|[k v] m IH]; simpl; [reflexivity|].
  destruct (f k); simpl; now rewrite IH.
Qed.

Lemma keys_removeKeys {V : Type} (ks : list string) (m : list (string * V)) :
  JsMap.keys (removeKeys ks m) = filter (keptKey ks) (JsMap.keys m).
Proof. rewrite removeKeys_filter. apply keys_filter_fst. Qed.

(** ** The ledger sort *)

Lemma insertByTime_perm e l : Permutation (insertByTime e l) (e :: l).
Proof.
  induction l as [|e' l IH]; simpl; [reflexivity|].
  destruct (snd e - snd e' <=? 0); [reflexivity|].
  rewrite IH. apply perm_swap.
Qed.

Lemma sortByTime_perm l : Permutation (sortByTime l) l.
Proof.
  induction l as [|e l IH]; simpl; [reflexivity|].
  rewrite insertByTime_perm. now constructor.
Qed.


Lemma firstn_NoDup {A : Type} (n : nat) (l : list A) :
  NoDup l -> NoDup (firstn n l).
Proof.
  intros H. rewrite <- (firstn_skipn n l) in H.
  now apply NoDup_app_remove_r in H.
Qed.

Lemma firstn_incl {A : Type} (n : nat) (l : list A) : incl (firstn n l) l.
Proof.
  intros x Hx. rewrite <- (firstn_skipn n l). apply in_or_app. now left.
Qed.

(** ** Eviction, in closed form *)

Lemma fold_evictEntry (es : list (string * Z)) (w : World) :
  fold_left evictEntry es w
  = set_cacheAccessOrder (removeKeys (map fst es) (cacheAccessOrder w))
      (set_smartTileCache (removeKeys (map fst es) (smartTileCache w)) w).
Proof.
  revert w. induction es as [|e es IH]; intros w.
  - destruct w; reflexivity.
  - simpl. rewrite IH. destruct w; reflexivity.
Qed.

Lemma evictLRUEntries_closed (w : World) :
  evictLRUEntries w
  = if JsMap.size (smartTileCache w) <=? maxCacheSize then w
    else set_cacheAccessOrder (removeKeys (evictedKeys w) (cacheAccessOrder w))
           (set_smartTileCache (removeKeys (evictedKeys w) (smartTileCache w)) w).
Proof.
  unfold evictLRUEntries.
  destruct (JsMap.size (smartTileCache w) <=? maxCacheSize); [reflexivity|].
  apply fold_evictEntry.
Qed.

Lemma evictedKeys_facts (w : World) :
  JsMap.keys (smartTileCache w) = JsMap.keys (cacheAccessOrder w) ->
  NoDup (JsMap.keys (smartTileCache w)) ->
  maxCacheSize < JsMap.size (smartTileCache w) ->
  NoDup (evictedKeys w)
  /\ incl (evictedKeys w) (JsMap.keys (smartTileCache w))
  /\ Z.of_nat (List.length (evictedKeys w))
     = JsMap.size (smartTileCache w) - maxCacheSize + 10.
Proof.
  intros Hk Hnd Hsz. unfold evictedKeys, slice0, JsMap.size, maxCacheSize in *.
  set (n := Z.of_nat (List.length (smartTileCache w)) - 500 + 10) in *.
  destruct (Z.ltb_spec n 0) as [Hneg|_]; [lia|].
  pose proof (sortByTime_perm (cacheAccessOrder w)) as Hp.
  assert (Hpk : Permutation (map fst (sortByTime (cacheAccessOrder w)))
                  (JsMap.keys (smartTileCache w))).
  { rewrite Hk. unfold JsMap.keys. now apply Permutation_map. }
  rewrite <- firstn_map.
  assert (Hnd' : NoDup (map fst (sortByTime (cacheAccessOrder w)))).
  { eapply Permutation_NoDup; [symmetry; exact Hpk | exact Hnd]. }
  split; [now apply firstn_NoDup|]. split.
  - intros x Hx. apply firstn_incl in Hx.
    eapply Permutation_in; [exact Hpk | exact Hx].
  - rewrite length_firstn. apply Permutation_length in Hpk.
    rewrite Hpk, length_keys. lia.
Qed.

Lemma evictLRUEntries_ok (w : World) :
  JsMap.keys (smartTileCache w) = JsMap.keys (cacheAccessOrder w) ->
  NoDup (JsMap.keys (smartTileCache w)) ->
  lruOk (evictLRUEntries w).
Proof.
  intros Hk Hnd. rewrite evictLRUEntries_closed.
  destruct (Z.leb_spec (JsMap.size (smartTileCache w)) maxCacheSize) as [Hle|Hgt].
  - now constructor.
  - destruct (evictedKeys_facts w Hk Hnd Hgt) as (Hnd' & Hincl & Hlen).
    pose proof (length_filter_kept _ _ Hnd Hnd' Hincl) as Hcount.
    set (ks := evictedKeys w) in *. clearbody ks.
    destruct w; simpl in *. constructor; simpl.
    + rewrite !keys_removeKeys. now rewrite Hk.
    + rewrite keys_removeKeys. now apply NoDup_filter.
    + unfold JsMap.size in *. rewrite <- length_keys, keys_removeKeys.
      rewrite length_keys in Hcount. unfold maxCacheSize in *. lia.
Qed.

(** ** The cache operations keep the ledger in step *)

Lemma lruOk_moduleLoaded g l : lruOk (moduleLoaded g l).
Proof. constructor; simpl; [reflexivity | constructor | unfold JsMap.size, maxCacheSize; simpl; lia]. Qed.

Lemma saveCacheStatistics_ok w : lruOk w -> lruOk (saveCacheStatistics w).
Proof. destruct w; intros [H1 H2 H3]; constructor; assumption. Qed.

Lemma storeInSmartCache_ok k v now w :
  lruOk w -> lruOk (storeInSmartCache k v now w).
Proof.
  intros [Hk Hnd Hsz]. unfold storeInSmartCache.
  destruct (smartTileCacheEnabled w); simpl; [|now constructor].
  match goal with |- lruOk (if _ then saveCacheStatistics ?x else ?x) =>
    assert (H : lruOk x) end.
  { apply evictLRUEntries_ok; destruct w; simpl in *.
    - now apply keys_set_both.
    - now apply NoDup_keys_set. }
  destruct (Z.rem _ _ =? 0); [now apply saveCacheStatistics_ok | exact H].
Qed.

Lemma getFromSmartCache_ok k now w :
  lruOk w -> lruOk (snd (getFromSmartCache k now w)).
Proof.
  intros [Hk Hnd Hsz]. unfold getFromSmartCache.
  destruct (smartTileCacheEnabled w); simpl; [|now constructor].
  destruct (JsMap.has k (smartTileCache w)) eqn:Hhas; simpl.
  - destruct w; simpl in *. constructor; simpl; try assumption.
    rewrite set_present; [exact Hk|].
    apply not_false_is_true. intros Hf. apply has_false_not_in in Hf.
    rewrite <- Hk in Hf. apply Hf. now apply has_true_in.
  - destruct w; simpl in *. now constructor.
Qed.

Lemma clearSmartTileCache_ok w : lruOk (clearSmartTileCache w).
Proof.
  destruct w; constructor; simpl;
    [reflexivity | constructor | unfold JsMap.size, maxCacheSize; simpl; lia].
Qed.

(** Operations that leave the cache and its ledger alone. *)
Lemma lruOk_same w w' :
  smartTileCache w' = smartTileCache w ->
  cacheAccessOrder w' = cacheAccessOrder w ->
  lruOk w -> lruOk w'.
Proof. intros E1 E2 [H1 H2 H3]. constructor; rewrite ?E1, ?E2; assumption. Qed.

Lemma storeFrozen_lru c r w :
  smartTileCache (storeFrozen c r w) = smartTileCache w
  /\ cacheAccessOrder (storeFrozen c r w) = cacheAccessOrder w.
Proof.
  unfold storeFrozen. destruct w; simpl.
  destruct (100 <? _); [|now split].
  destruct (JsMap.firstKey _); now split.
Qed.

Lemma initializeSmartTileCache_ok w : lruOk w -> lruOk (initializeSmartTileCache w).
Proof.
  intros H. unfold initializeSmartTileCache.
  set (w1 := set_smartTileCacheEnabled _ w).
  assert (H1 : lruOk w1) by (destruct w, H; now constructor).
  clearbody w1.
  destruct (ls_bmSmartTileCacheVersion (localStorage w1)) as [v|];
    [destruct (String.eqb v cacheVersion)|].
  - destruct w1, H1; now constructor.
  - pose proof (clearSmartTileCache_ok w1) as [? ? ?].
    destruct w1; now constructor.
  - pose proof (clearSmartTileCache_ok w1) as [? ? ?].
    destruct w1; now constructor.
Qed.

Lemma applyTileRefreshPause_lru w :
  lruOk w -> lruOk (applyTileRefreshPause w).
Proof.
  intros H. unfold applyTileRefreshPause.
  destruct (tileRefreshPaused w); [destruct w, H; now constructor|].
  destruct (originalDrawTemplateOnTile w); [destruct w, H; now constructor|exact H].
Qed.

Lemma wrapperEnd_ok p o now w : lruOk w -> lruOk (snd (wrapperEnd p o now w)).
Proof.
  intros H. unfold wrapperEnd. destruct o as [result|reason]; [|exact H].
  destruct (_ && _); [|exact H]. simpl.
  destruct (storeFrozen_lru (p_tileCoords p) result
              (storeInSmartCache (p_cacheKey p) result now w)) as [E1 E2].
  eapply lruOk_same; [exact E1 | exact E2 |]. now apply storeInSmartCache_ok.
Qed.

Lemma wrapperBegin_ok probe b c ts now w :
  lruOk w ->
  match wrapperBegin probe b c ts now w with
  | Returned _ w' | Awaiting _ w' | HostRuns w' => lruOk w'
  end.
Proof.
  intros H. unfold wrapperBegin. destruct probe; [|exact H].
  pose proof (getFromSmartCache_ok (generateCacheKey c ts b) now w H) as H'.
  destruct (getFromSmartCache _ now w) as [r w']. simpl in H'.
  destruct (truthy r); exact H'.
Qed.

Lemma step_lruOk w ev : lruOk w -> lruOk (step w ev).
Proof.
  intros H. destruct ev; simpl.
  - unfold initializeTileRefreshPause.
    apply applyTileRefreshPause_lru.
    pose proof (initializeSmartTileCache_ok w H) as H1.
    set (w1 := initializeSmartTileCache w) in *. clearbody w1.
    set (w2 := set_tileRefreshPaused _ w1).
    assert (H2 : lruOk w2) by (destruct w1, H1; now constructor).
    clearbody w2.
    destruct (originalDrawTemplateOnTile w2); [exact H2|].
    destruct w2, H2; now constructor.
  - unfold toggleTileRefreshPause. simpl. apply applyTileRefreshPause_lru.
    unfold saveTileRefreshPaused. destruct w, H; simpl in *.
    destruct gmStorage0; now constructor.
  - unfold toggleSmartTileCache. simpl.
    match goal with |- lruOk (if _ then clearSmartTileCache ?x else ?x) =>
      assert (H1 : lruOk x) end.
    { unfold saveSmartTileCacheEnabled. destruct w, H; simpl in *.
      destruct gmStorage0; now constructor. }
    match goal with |- lruOk (if ?c then _ else _) => destruct c end;
      [apply clearSmartTileCache_ok | exact H1].
  - unfold invalidateCacheForSettingsChange.
    destruct (_ && _); [apply clearSmartTileCache_ok | exact H].
  - destruct w, H; now constructor.
  - destruct w, H; now constructor.
  - unfold callDraw. destruct (drawTemplateOnTile w); try exact H.
    + pose proof (wrapperBegin_ok (negb (tileRefreshPaused w) && smartTileCacheEnabled w)
                    tileBlob tileCoords templatesArray now w H) as H'.
      destruct (wrapperBegin _ _ _ _ _ _) as [r w'|p w'|w']; try exact H'.
      destruct w', H'; now constructor.
    + pose proof (wrapperBegin_ok (smartTileCacheEnabled w)
                    tileBlob tileCoords templatesArray now w H) as H'.
      destruct (wrapperBegin _ _ _ _ _ _) as [r w'|p w'|w']; try exact H'.
      destruct w', H'; now constructor.
  - destruct (nth_error (inflight w) i) as [p|]; [|exact H].
    apply wrapperEnd_ok. destruct w, H; now constructor.
Qed.

Lemma run_lruOk evs w : lruOk w -> lruOk (run w evs).
Proof.
  revert w. induction evs as [|ev evs IH]; intros w H; [exact H|].
  simpl. apply IH. now apply step_lruOk.
Qed.

Lemma reachable_lruOk w : reachable w -> lruOk w.
Proof.
  intros (g & l & evs & ->). apply run_lruOk, lruOk_moduleLoaded.
Qed.

(** ** Sequences of puts *)

Lemma putAll_lruOk puts w : lruOk w -> lruOk (putAll puts w).
Proof.
  revert w. induction puts as [|p puts IH]; intros w H; [exact H|].
  simpl. apply IH. now apply storeInSmartCache_ok.
Qed.

Lemma evictLRUEntries_matches w : ledgerMatches w -> ledgerMatches (evictLRUEntries w).
Proof.
  unfold ledgerMatches. intros H. rewrite evictLRUEntries_closed.
  destruct (_ <=? _); [exact H|].
  set (ks := evictedKeys w). clearbody ks. destruct w; simpl in *.
  rewrite !keys_removeKeys. now rewrite H.
Qed.

Lemma storeInSmartCache_matches k v now w :
  ledgerMatches w -> ledgerMatches (storeInSmartCache k v now w).
Proof.
  intros H. unfold storeInSmartCache.
  destruct (smartTileCacheEnabled w); simpl; [|exact H].
  match goal with |- ledgerMatches (if _ then saveCacheStatistics ?x else ?x) =>
    assert (H1 : ledgerMatches x) end.
  { apply evictLRUEntries_matches. unfold ledgerMatches in *.
    destruct w; simpl in *. now apply keys_set_both. }
  destruct (Z.rem _ _ =? 0); [|exact H1].
  unfold ledgerMatches in *.
  match goal with H1 : context [evictLRUEntries ?x] |- _ =>
    destruct (evictLRUEntries x) end.
  exact H1.
Qed.

Lemma getFromSmartCache_matches k now w :
  ledgerMatches w -> ledgerMatches (snd (getFromSmartCache k now w)).
Proof.
  unfold ledgerMatches. intros Hk. unfold getFromSmartCache.
  destruct (smartTileCacheEnabled w); simpl; [|exact Hk].
  destruct (JsMap.has k (smartTileCache w)) eqn:Hhas; simpl.
  - destruct w; simpl in *. rewrite set_present; [exact Hk|].
    apply not_false_is_true. intros Hf. apply has_false_not_in in Hf.
    rewrite <- Hk in Hf. apply Hf. now apply has_true_in.
  - destruct w; simpl in *. exact Hk.
Qed.

(** C3: the smart cache never holds more than [maxCacheSize] = 500 entries
    once a put has returned: after any sequence of puts on the freshly
    loaded module (cache enabled), and in every state any run of the module
    reaches; inside a put, between the insertion and the eviction, it holds
    at most one entry more. *)
Theorem smart_cache_size_bounded :
  maxCacheSize = 500
  /\ (forall g l puts,
        smartTileCacheEnabled (putAll puts (moduleLoaded g l)) = true
        /\ JsMap.size (smartTileCache (putAll puts (moduleLoaded g l))) <= 500)
  /\ (forall g l evs,
        JsMap.size (smartTileCache (run (moduleLoaded g l) evs)) <= 500)
  /\ (forall g l puts k v,
        JsMap.size (JsMap.set k v (smartTileCache (putAll puts (moduleLoaded g l))))
        <= 500 + 1).
Proof.
  split; [reflexivity|]. split; [|split].
  - intros g l puts. split.
    + generalize (moduleLoaded g l) (eq_refl : smartTileCacheEnabled (moduleLoaded g l) = true).
      induction puts as [|p puts IH]; intros w Hw; [exact Hw|].
      simpl. apply IH. unfold storeInSmartCache. rewrite Hw. simpl.
      rewrite evictLRUEntries_closed.
      destruct (_ <=? _); destruct (Z.rem _ _ =? 0); destruct w; simpl in *; exact Hw.
    + apply (lru_size _ (putAll_lruOk puts _ (lruOk_moduleLoaded g l))).
  - intros g l evs. apply (lru_size _ (run_lruOk evs _ (lruOk_moduleLoaded g l))).
  - intros g l puts k v.
    pose proof (lru_size _ (putAll_lruOk puts _ (lruOk_moduleLoaded g l))) as H.
    unfold JsMap.size, maxCacheSize in *.
    pose proof (length_set_le k v (smartTileCache (putAll puts (moduleLoaded g l)))).
    lia.
Qed.

(** C8: the access ledger has an entry for exactly the keys of the smart
    cache (the two key lists are equal, in insertion order): in every state a
    run of the module reaches, and each of put, get, eviction and clear keeps
    it so. *)
Theorem ledger_keys_match_store :
  (forall g l evs, ledgerMatches (run (moduleLoaded g l) evs))
  /\ (forall w k v now,
        ledgerMatches w ->
        ledgerMatches (storeInSmartCache k v now w)
        /\ ledgerMatches (snd (getFromSmartCache k now w))
        /\ ledgerMatches (evictLRUEntries w)
        /\ ledgerMatches (clearSmartTileCache w)).
Proof.
  split.
  - intros g l evs. apply (lru_keys _ (run_lruOk evs _ (lruOk_moduleLoaded g l))).
  - intros w k v now H. repeat split.
    + now apply storeInSmartCache_matches.
    + now apply getFromSmartCache_matches.
    + now apply evictLRUEntries_matches.
    + destruct w; reflexivity.
Qed.

(** ** Filling the cache with distinct keys *)

Lemma storeInSmartCache_unfold k v now w :
  smartTileCacheEnabled w = true ->
  let w1 := evictLRUEntries
              (updateCacheAccess k now
                 (set_smartTileCache (JsMap.set k v (smartTileCache w)) w)) in
  smartTileCache (storeInSmartCache k v now w) = smartTileCache w1
  /\ cacheAccessOrder (storeInSmartCache k v now w) = cacheAccessOrder w1
  /\ smartTileCacheEnabled (storeInSmartCache k v now w) = true.
Proof.
  intros Hen w1. unfold storeInSmartCache. rewrite Hen. simpl. fold w1.
  assert (He : smartTileCacheEnabled w1 = true).
  { unfold w1. rewrite evictLRUEntries_closed.
    destruct (_ <=? _); destruct w; simpl in *; exact Hen. }
  destruct (Z.rem _ _ =? 0); [|auto].
  destruct w1; simpl in *; auto.
Qed.

Lemma storeInSmartCache_fresh k v now w :
  smartTileCacheEnabled w = true ->
  ledgerMatches w ->
  ~ In k (JsMap.keys (smartTileCache w)) ->
  JsMap.size (smartTileCache w) < maxCacheSize ->
  smartTileCache (storeInSmartCache k v now w) = smartTileCache w ++ [(k, v)]
  /\ cacheAccessOrder (storeInSmartCache k v now w) = cacheAccessOrder w ++ [(k, now)]
  /\ smartTileCacheEnabled (storeInSmartCache k v now w) = true.
Proof.
  intros Hen Hm Hk Hsz.
  destruct (storeInSmartCache_unfold k v now w Hen) as (E1 & E2 & E3).
  rewrite E1, E2, E3. clear E1 E2 E3.
  rewrite evictLRUEntries_closed.
  assert (Hs : JsMap.has k (smartTileCache w) = false) by now apply not_in_has_false.
  assert (Ha : JsMap.has k (cacheAccessOrder w) = false).
  { apply not_in_has_false. unfold ledgerMatches in Hm. now rewrite <- Hm. }
  destruct w; unfold ledgerMatches, JsMap.size, maxCacheSize in *; simpl in *.
  rewrite (set_absent _ _ _ Hs), (set_absent _ _ _ Ha).
  rewrite length_app. simpl.
  destruct (Z.leb_spec (Z.of_nat (List.length smartTileCache0 + 1)) 500); [|lia].
  simpl. auto.
Qed.


(** ** The put that overflows the cache *)

Lemma storeInSmartCache_overflow k v now w :
  smartTileCacheEnabled w = true ->
  ledgerMatches w ->
  ~ In k (JsMap.keys (smartTileCache w)) ->
  JsMap.size (smartTileCache w) = maxCacheSize ->
  let ev := map fst (firstn 11 (sortByTime (cacheAccessOrder w ++ [(k, now)]))) in
  smartTileCache (storeInSmartCache k v now w)
  = removeKeys ev (smartTileCache w ++ [(k, v)])
  /\ cacheAccessOrder (storeInSmartCache k v now w)
     = removeKeys ev (cacheAccessOrder w ++ [(k, now)])
  /\ smartTileCacheEnabled (storeInSmartCache k v now w) = true.
Proof.
  intros Hen Hm Hk Hsz ev.
  destruct (storeInSmartCache_unfold k v now w Hen) as (E1 & E2 & E3).
  rewrite E1, E2, E3. clear E1 E2 E3.
  rewrite evictLRUEntries_closed. unfold evictedKeys.
  assert (Hs : JsMap.has k (smartTileCache w) = false) by now apply not_in_has_false.
  assert (Ha : JsMap.has k (cacheAccessOrder w) = false).
  { apply not_in_has_false. unfold ledgerMatches in Hm. now rewrite <- Hm. }
  destruct w; unfold ledgerMatches, JsMap.size, maxCacheSize in *; simpl in *.
  rewrite (set_absent _ _ _ Hs), (set_absent _ _ _ Ha).
  rewrite length_app. simpl List.length.
  replace (Z.of_nat (List.length smartTileCache0 + 1)) with 501 by lia.
  change (501 <=? 500) with false. cbv iota.
  change (slice0 (501 - 500 + 10)) with (@firstn (string * Z) 11).
  simpl. auto.
Qed.




Lemma keptKey_true ks k : ~ In k ks -> keptKey ks k = true.
Proof.
  intros H. unfold keptKey.
  destruct (existsb (fun k' => String.eqb k k') ks) eqn:E; [|reflexivity].
  apply existsb_exists in E. destruct E as (y & Hy & Hky).
  apply String.eqb_eq in Hky. subst y. contradiction.
Qed.

Lemma keptKey_false ks k : In k ks -> keptKey ks k = false.
Proof.
  intros H. unfold keptKey.
  replace (existsb (fun k' => String.eqb k k') ks) with true; [reflexivity|].
  symmetry. apply existsb_exists. exists k. split; [exact H|apply String.eqb_refl].
Qed.







Lemma has_iff_in {V : Type} k (m : list (string * V)) :
  JsMap.has k m = true <-> In k (JsMap.keys m).
Proof.
  split; [apply has_true_in|]. intros H.
  destruct (JsMap.has k m) eqn:E; [reflexivity|].
  now apply has_false_not_in in E.
Qed.


(** ** The key builder *)

Lemma leb_trans (x y z : string) :
  String.leb x y = true -> String.leb y z = true -> String.leb x z = true.
Proof.
  unfold String.leb. intros Hxy Hyz.
  destruct (String.compare x y) eqn:Exy; try discriminate;
    destruct (String.compare y z) eqn:Eyz; try discriminate.
  - apply String.compare_eq_iff in Exy. subst y. now rewrite Eyz.
  - apply String.compare_eq_iff in Exy. subst y. now rewrite Eyz.
  - apply String.compare_eq_iff in Eyz. subst z. now rewrite Exy.
  - apply String_as_OT.cmp_lt in Exy, Eyz.
    pose proof (String_as_OT.lt_trans _ _ _ Exy Eyz) as Hxz.
    apply String_as_OT.cmp_lt in Hxz. unfold String_as_OT.cmp in Hxz.
    now rewrite Hxz.
Qed.

Lemma leb_false_flip (x y : string) :
  String.leb x y = false -> String.leb y x = true.
Proof.
  intros H. destruct (String.leb_total x y) as [E|E]; [congruence|exact E].
Qed.

Lemma insertString_comm (x y : string) (l : list string) :
  Js.insertString x (Js.insertString y l) = Js.insertString y (Js.insertString x l).
Proof.
  induction l as [|z l IH]; simpl.
  - destruct (String.leb x y) eqn:Exy, (String.leb y x) eqn:Eyx; try reflexivity.
    + now rewrite (String.leb_antisym _ _ Exy Eyx).
    + apply leb_false_flip in Exy. congruence.
  - destruct (String.leb y z) eqn:Eyz, (String.leb x z) eqn:Exz; simpl;
      rewrite ?Eyz, ?Exz.
    + destruct (String.leb x y) eqn:Exy, (String.leb y x) eqn:Eyx; try reflexivity.
      * now rewrite (String.leb_antisym _ _ Exy Eyx).
      * apply leb_false_flip in Exy. congruence.
    + assert (Exy : String.leb x y = false).
      { destruct (String.leb x y) eqn:E; [|reflexivity].
        rewrite (leb_trans _ _ _ E Eyz) in Exz. discriminate. }
      rewrite Exy. simpl. rewrite ?Exz. reflexivity.
    + assert (Eyx : String.leb y x = false).
      { destruct (String.leb y x) eqn:E; [|reflexivity].
        rewrite (leb_trans _ _ _ E Exz) in Eyz. discriminate. }
      rewrite Eyx. simpl. rewrite ?Eyz. reflexivity.
    + now rewrite IH.
Qed.

Lemma sortStrings_perm (l1 l2 : list string) :
  Permutation l1 l2 -> Js.sortStrings l1 = Js.sortStrings l2.
Proof.
  induction 1 as [|x l1 l2 _ IH|x y l|l1 l2 l3 _ IH1 _ IH2]; simpl.
  - reflexivity.
  - now rewrite IH.
  - apply insertString_comm.
  - now rewrite IH1.
Qed.

Lemma insertString_perm x l : Permutation (Js.insertString x l) (x :: l).
Proof.
  induction l as [|y l IH]; simpl; [reflexivity|].
  destruct (String.leb x y); [reflexivity|].
  rewrite IH. apply perm_swap.
Qed.

Lemma sortStrings_is_perm l : Permutation (Js.sortStrings l) l.
Proof.
  induction l as [|x l IH]; simpl; [reflexivity|].
  rewrite insertString_perm. now constructor.
Qed.

Lemma templateHash_Some (ts : list Template) :
  templateHash (Some ts) = Js.join "|" (Js.sortStrings (activeLabels ts)).
Proof. destruct ts; reflexivity. Qed.

Lemma filter_perm {A : Type} (f : A -> bool) (l1 l2 : list A) :
  Permutation l1 l2 -> Permutation (filter f l1) (filter f l2).
Proof.
  induction 1 as [|x l1 l2 _ IH|x y l|l1 l2 l3 _ IH1 _ IH2]; simpl.
  - reflexivity.
  - destruct (f x); [now constructor | exact IH].
  - destruct (f x), (f y); try reflexivity. apply perm_swap.
  - now rewrite IH1.
Qed.

Lemma generateCacheKey_perm c ts1 ts2 b :
  Permutation ts1 ts2 ->
  generateCacheKey c (Some ts1) b = generateCacheKey c (Some ts2) b.
Proof.
  intros Hp. unfold generateCacheKey. rewrite !templateHash_Some.
  do 2 f_equal. f_equal. f_equal. apply sortStrings_perm. unfold activeLabels.
  now apply Permutation_map, filter_perm.
Qed.

(** *** Strings without the separator *)

Lemma noBar_append s t : noBar (s ++ t)%string = noBar s && noBar t.
Proof.
  induction s as [|c s IH]; simpl; [reflexivity|].
  rewrite IH. now rewrite andb_assoc.
Qed.

Lemma append_cancel_l (p s t : string) : (p ++ s = p ++ t)%string -> s = t.
Proof. induction p as [|c p IH]; simpl; [auto|]. intros H. injection H. auto. Qed.

Lemma length_append (s t : string) :
  String.length (s ++ t) = (String.length s + String.length t)%nat.
Proof. induction s as [|c s IH]; simpl; [reflexivity|]. now rewrite IH. Qed.

Lemma append_cancel_r (s t q : string) : (s ++ q = t ++ q)%string -> s = t.
Proof.
  intros H.
  assert (Hlen : String.length s = String.length t).
  { apply (f_equal String.length) in H. rewrite !length_append in H. lia. }
  revert t H Hlen. induction s as [|c s IH]; intros [|d t] H Hlen;
    simpl in *; try discriminate; [reflexivity|].
  injection H as -> H. f_equal. apply IH; [exact H | lia].
Qed.

Lemma bar_split (a b r1 r2 : string) :
  noBar a = true -> noBar b = true ->
  (a ++ "|" ++ r1 = b ++ "|" ++ r2)%string -> a = b /\ r1 = r2.
Proof.
  revert b. induction a as [|c a IH]; intros [|d b] Ha Hb H; simpl in *.
  - injection H as H. auto.
  - injection H as <- _. simpl in Hb. discriminate.
  - injection H as -> _. simpl in Ha. discriminate.
  - injection H as -> H. apply andb_true_iff in Ha, Hb.
    destruct (IH b (proj2 Ha) (proj2 Hb) H) as [-> ->]. auto.
Qed.

Lemma join_inj (l1 l2 : list string) :
  Forall plainLabel l1 -> Forall plainLabel l2 ->
  Js.join "|" l1 = Js.join "|" l2 -> l1 = l2.
Proof.
  unfold Js.join. revert l2.
  induction l1 as [|a l1 IH]; intros l2 H1 H2 H.
  - destruct l2 as [|b l2]; [reflexivity|]. exfalso.
    apply Forall_inv in H2. destruct H2 as [_ Hb]. simpl in H.
    destruct l2; [now symmetry in H|]. destruct b; [now apply Hb|discriminate].
  - destruct l2 as [|b l2].
    + exfalso. apply Forall_inv in H1. destruct H1 as [_ Ha]. simpl in H.
      destruct l1; [exact (Ha H)|]. destruct a; [now apply Ha|discriminate].
    + pose proof (Forall_inv H1) as [Ha _]. pose proof (Forall_inv H2) as [Hb _].
      apply Forall_inv_tail in H1, H2.
      destruct l1 as [|a' l1], l2 as [|b' l2].
      * simpl in H. now subst.
      * exfalso. simpl in H. rewrite H, noBar_append in Ha.
        simpl in Ha. rewrite andb_false_r in Ha. discriminate.
      * exfalso. simpl in H. rewrite <- H, noBar_append in Hb.
        simpl in Hb. rewrite andb_false_r in Hb. discriminate.
      * change (String.concat "|" (a :: a' :: l1))
          with (a ++ "|" ++ String.concat "|" (a' :: l1))%string in H.
        change (String.concat "|" (b :: b' :: l2))
          with (b ++ "|" ++ String.concat "|" (b' :: l2))%string in H.
        destruct (bar_split _ _ _ _ Ha Hb H) as [-> Hr].
        f_equal. now apply IH.
Qed.

Lemma noBar_uint d : noBar (NilEmpty.string_of_uint d) = true.
Proof. induction d; simpl; auto. Qed.

Lemma noBar_toString n : noBar (Js.toString n) = true.
Proof.
  unfold Js.toString, NilZero.string_of_int, NilZero.string_of_uint.
  destruct (Z.to_int n) as [d|d]; destruct d; simpl; auto using noBar_uint.
Qed.

Lemma templateLabel_plain t :
  noBar (nameOrDefault t) = true -> plainLabel (templateLabel t).
Proof.
  intros H. unfold plainLabel, templateLabel. split.
  - rewrite !noBar_append, H, noBar_toString. reflexivity.
  - destruct (nameOrDefault t); discriminate.
Qed.

Lemma sameIdentity_label a b : sameIdentity a b -> templateLabel a = templateLabel b.
Proof.
  intros [Hn Hs]. unfold templateLabel, nameOrDefault, sortIDOrDefault.
  now rewrite Hn, Hs.
Qed.

Lemma sameIdentity_labels ts1 ts2 :
  Forall2 sameIdentity ts1 ts2 -> map templateLabel ts1 = map templateLabel ts2.
Proof.
  induction 1 as [|a b ts1 ts2 Hab _ IH]; simpl; [reflexivity|].
  now rewrite (sameIdentity_label _ _ Hab), IH.
Qed.

Lemma activeLabels_incl ts : incl (activeLabels ts) (map templateLabel ts).
Proof.
  intros x Hx. unfold activeLabels in Hx. apply in_map_iff in Hx.
  destruct Hx as (t & <- & Ht). apply filter_In in Ht. apply in_map. tauto.
Qed.

Lemma activeLabels_cons a ts :
  activeLabels (a :: ts)
  = if isActive a then templateLabel a :: activeLabels ts else activeLabels ts.
Proof. unfold activeLabels. simpl. now destruct (isActive a). Qed.

Lemma active_determined ts1 ts2 :
  Forall2 sameIdentity ts1 ts2 ->
  NoDup (map templateLabel ts1) ->
  (forall x, In x (activeLabels ts1) <-> In x (activeLabels ts2)) ->
  map isActive ts1 = map isActive ts2.
Proof.
  induction 1 as [|a b ts1 ts2 Hab Hrest IH]; intros Hnd Hiff; [reflexivity|].
  simpl in Hnd. apply NoDup_cons_iff in Hnd. destruct Hnd as [Ha Hnd].
  pose proof (sameIdentity_label _ _ Hab) as Hl.
  pose proof (sameIdentity_labels _ _ Hrest) as Hls.
  assert (Hb : ~ In (templateLabel a) (map templateLabel ts2)) by now rewrite <- Hls.
  assert (Hhead : isActive a = isActive b).
  { destruct (isActive a) eqn:Ea, (isActive b) eqn:Eb; try reflexivity; exfalso.
    - apply Hb, activeLabels_incl.
      specialize (Hiff (templateLabel a)). rewrite !activeLabels_cons, Ea, Eb in Hiff.
      apply Hiff. now left.
    - apply Ha, activeLabels_incl.
      specialize (Hiff (templateLabel b)). rewrite !activeLabels_cons, Ea, Eb in Hiff.
      rewrite Hl. apply Hiff. now left. }
  simpl. rewrite Hhead. f_equal. apply IH; [exact Hnd|].
  intros x. specialize (Hiff x). rewrite !activeLabels_cons, <- Hhead, <- Hl in Hiff.
  split; intros Hx.
  - assert (Hne : templateLabel a <> x)
      by (intros <-; apply Ha, activeLabels_incl, Hx).
    destruct (isActive a); [|tauto].
    destruct (proj1 Hiff (or_intror Hx)) as [E|E]; [contradiction|exact E].
  - assert (Hne : templateLabel a <> x)
      by (intros <-; apply Hb, activeLabels_incl, Hx).
    destruct (isActive a); [|tauto].
    destruct (proj2 Hiff (or_intror Hx)) as [E|E]; [contradiction|exact E].
Qed.

Lemma sameIdentity_names ts1 ts2 :
  Forall2 sameIdentity ts1 ts2 ->
  Forall (fun t => noBar (nameOrDefault t) = true) ts1 ->
  Forall (fun t => noBar (nameOrDefault t) = true) ts2.
Proof.
  induction 1 as [|a b ts1 ts2 [Hn _] _ IH]; intros H; constructor.
  - apply Forall_inv in H. unfold nameOrDefault in *. now rewrite <- Hn.
  - apply IH. now apply Forall_inv_tail in H.
Qed.

Lemma activeLabels_plain ts :
  Forall (fun t => noBar (nameOrDefault t) = true) ts ->
  Forall plainLabel (Js.sortStrings (activeLabels ts)).
Proof.
  intros H. eapply Permutation_Forall; [symmetry; apply sortStrings_is_perm|].
  unfold activeLabels. apply Forall_map.
  apply Forall_forall. intros t Ht. apply filter_In in Ht.
  apply templateLabel_plain. rewrite Forall_forall in H. apply H. tauto.
Qed.

Lemma generateCacheKey_hash_inj c th1 th2 b :
  generateCacheKey c (Some th1) b = generateCacheKey c (Some th2) b ->
  templateHash (Some th1) = templateHash (Some th2).
Proof.
  unfold generateCacheKey. intros H.
  apply append_cancel_l in H. simpl in H. injection H as H.
  now apply append_cancel_r in H.
Qed.

(** C2 as stated fails: [collidingA] and [collidingB] hold the same three
    templates, enabled differently, and get the same key. *)
Lemma enabled_sets_collide :
  Forall2 sameIdentity collidingA collidingB
  /\ map isActive collidingA <> map isActive collidingB
  /\ generateCacheKey (CoordsArray 12 7) (Some collidingA)
       (Some (mkBlob 100 "image/png" 0))
     = generateCacheKey (CoordsArray 12 7) (Some collidingB)
         (Some (mkBlob 100 "image/png" 0)).
Proof.
  split; [|split].
  - repeat constructor.
  - discriminate.
  - reflexivity.
Qed.

(** C2, amended: the key is a function of its inputs and does not depend on
    the order of the template list; two lists holding the same templates,
    enabled differently, get different keys when the [name_sortID] labels
    of the list are pairwise distinct and no name contains the separator
    ["|"]. *)
Theorem key_order_independent_enabled_sensitive
    (c : Coords) (b : Tile) (ts1 ts2 : list Template) :
  (Permutation ts1 ts2 ->
   generateCacheKey c (Some ts1) b = generateCacheKey c (Some ts2) b)
  /\ (Forall2 sameIdentity ts1 ts2 ->
      NoDup (map templateLabel ts1) ->
      Forall (fun t => noBar (nameOrDefault t) = true) ts1 ->
      map isActive ts1 <> map isActive ts2 ->
      generateCacheKey c (Some ts1) b <> generateCacheKey c (Some ts2) b).
Proof.
  split; [apply generateCacheKey_perm|].
  intros Hsame Hnd Hbar Hdiff Hkey. apply Hdiff.
  apply generateCacheKey_hash_inj in Hkey. rewrite !templateHash_Some in Hkey.
  apply join_inj in Hkey.
  - apply active_determined; [exact Hsame | exact Hnd |].
    assert (Hp : Permutation (activeLabels ts1) (activeLabels ts2)).
    { rewrite <- (sortStrings_is_perm (activeLabels ts1)), Hkey.
      apply sortStrings_is_perm. }
    intros x. split; apply Permutation_in; [exact Hp | now symmetry].
  - now apply activeLabels_plain.
  - apply activeLabels_plain. eapply sameIdentity_names; eauto.
Qed.

(** C5: the keys of the scenario, for any bytes behind the blobs and any
    type of the third payload. *)
Theorem key_scenario (h1 h2 h3 : nat) (ty : string) :
  let on := Some [mkTemplate (Some "A"%string) (Some 1) (Some true)] in
  let off := Some [mkTemplate (Some "A"%string) (Some 1) (Some false)] in
  let k1 := generateCacheKey (CoordsArray 12 7) on (Some (mkBlob 100 "image/png" h1)) in
  let k2 := generateCacheKey (CoordsArray 12 7) off (Some (mkBlob 100 "image/png" h2)) in
  let k3 := generateCacheKey (CoordsArray 12 7) on (Some (mkBlob 200 ty h3)) in
  let k3' := generateCacheKey (CoordsArray 12 7) off (Some (mkBlob 200 ty h3)) in
  k1 = "0012,0007_A_1_100_image/png"%string
  /\ k2 = "0012,0007__100_image/png"%string
  /\ k1 <> k2 /\ k1 <> k3 /\ k2 <> k3 /\ k1 <> k3' /\ k2 <> k3'.
Proof.
  cbv zeta. repeat split; try reflexivity; cbv; discriminate.
Qed.

(** ** What the cache operations leave alone *)

Lemma getSmartTileCacheEnabled_switches w w' :
  switches w' = switches w ->
  getSmartTileCacheEnabled w' = getSmartTileCacheEnabled w.
Proof.
  unfold switches, getSmartTileCacheEnabled. intros H.
  injection H as _ _ _ _ _ -> -> _. reflexivity.
Qed.

Ltac split_ifs :=
  repeat match goal with
         | |- context [if ?c then _ else _] => destruct c; simpl
         | |- context [match ?c with Some _ => _ | None => _ end] => destruct c; simpl
         end.

Ltac by_cases_on w :=
  rewrite ?evictLRUEntries_closed; destruct w; simpl; split_ifs;
  simpl; auto.

Lemma storeInSmartCache_switches k v now w :
  switches (storeInSmartCache k v now w) = switches w
  /\ frozenTileCache (storeInSmartCache k v now w) = frozenTileCache w
  /\ cacheHits (storeInSmartCache k v now w) = cacheHits w
  /\ cacheMisses (storeInSmartCache k v now w) = cacheMisses w.
Proof.
  unfold storeInSmartCache, switches, saveCacheStatistics, updateCacheAccess.
  by_cases_on w.
Qed.

Lemma getFromSmartCache_switches k now w :
  switches (snd (getFromSmartCache k now w)) = switches w
  /\ frozenTileCache (snd (getFromSmartCache k now w)) = frozenTileCache w
  /\ smartTileCache (snd (getFromSmartCache k now w)) = smartTileCache w
  /\ localStorage (snd (getFromSmartCache k now w)) = localStorage w.
Proof.
  unfold getFromSmartCache, switches, updateCacheAccess.
  by_cases_on w.
Qed.

Lemma clearSmartTileCache_switches w :
  switches (clearSmartTileCache w) = switches w
  /\ frozenTileCache (clearSmartTileCache w) = frozenTileCache w
  /\ smartTileCache (clearSmartTileCache w) = []
  /\ cacheAccessOrder (clearSmartTileCache w) = [].
Proof.
  unfold clearSmartTileCache, switches, saveCacheStatistics.
  by_cases_on w.
Qed.

Lemma storeFrozen_switches c r w :
  switches (storeFrozen c r w) = switches w
  /\ smartTileCache (storeFrozen c r w) = smartTileCache w
  /\ cacheAccessOrder (storeFrozen c r w) = cacheAccessOrder w
  /\ localStorage (storeFrozen c r w) = localStorage w.
Proof.
  unfold storeFrozen, switches.
  by_cases_on w.
Qed.

Lemma wrapperEnd_switches p o now w :
  switches (snd (wrapperEnd p o now w)) = switches w.
Proof.
  unfold wrapperEnd. destruct o as [result|reason]; [|reflexivity].
  destruct (_ && _); [|reflexivity]. simpl.
  destruct (storeFrozen_switches (p_tileCoords p) result
              (storeInSmartCache (p_cacheKey p) result now w)) as [-> _].
  apply storeInSmartCache_switches.
Qed.

Lemma wrapperBegin_switches probe b c ts now w :
  switches (afterDraw (wrapperBegin probe b c ts now w)) = switches w
  /\ frozenTileCache (afterDraw (wrapperBegin probe b c ts now w)) = frozenTileCache w
  /\ smartTileCache (afterDraw (wrapperBegin probe b c ts now w)) = smartTileCache w
  /\ localStorage (afterDraw (wrapperBegin probe b c ts now w)) = localStorage w.
Proof.
  unfold wrapperBegin. destruct probe; [|simpl; auto].
  pose proof (getFromSmartCache_switches (generateCacheKey c ts b) now w) as H.
  destruct (getFromSmartCache _ now w) as [r w']. simpl in H.
  destruct (truthy r); exact H.
Qed.

Lemma callDraw_switches fn b c ts now w :
  switches (afterDraw (callDraw fn b c ts now w)) = switches w
  /\ frozenTileCache (afterDraw (callDraw fn b c ts now w)) = frozenTileCache w
  /\ smartTileCache (afterDraw (callDraw fn b c ts now w)) = smartTileCache w
  /\ localStorage (afterDraw (callDraw fn b c ts now w)) = localStorage w.
Proof.
  destruct fn; simpl; auto using wrapperBegin_switches.
Qed.

(** ** The switches stay consistent *)

Lemma switchOk_moduleLoaded g l : switchOk (moduleLoaded g l).
Proof. constructor; simpl; auto; discriminate. Qed.

Lemma switchOk_same w w' :
  switches w' = switches w -> smartTileCache w' = smartTileCache w ->
  switchOk w -> switchOk w'.
Proof.
  intros Hs Hc [H1 H2 H3 H4 H5].
  pose proof (getSmartTileCacheEnabled_switches _ _ Hs) as Hg.
  unfold switches in Hs. injection Hs as E1 E2 E3 E4 E5 E6 E7 E8.
  constructor; rewrite ?E1, ?E2, ?E4, ?E5, ?E8, ?Hc, ?Hg; assumption.
Qed.

Lemma switchOk_set_inflight l w :
  originalDrawTemplateOnTile w <> None -> switchOk w -> switchOk (set_inflight l w).
Proof.
  intros Ho [H1 H2 H3 H4 H5]. destruct w; simpl in *.
  constructor; simpl; auto. intros E. contradiction.
Qed.

Lemma switchOk_wrapperEnd p o now w :
  originalDrawTemplateOnTile w <> None ->
  switchOk w -> switchOk (snd (wrapperEnd p o now w)).
Proof.
  intros Ho H. pose proof (wrapperEnd_switches p o now w) as Hs.
  pose proof (getSmartTileCacheEnabled_switches _ _ Hs) as Hg.
  destruct H as [H1 H2 H3 H4 H5].
  unfold switches in Hs. injection Hs as E1 E2 E3 E4 E5 E6 E7 E8.
  constructor; rewrite ?E1, ?E2, ?E4, ?E5, ?Hg; try assumption.
  - intros Hoff. unfold wrapperEnd. destruct o as [result|reason]; simpl; auto.
    rewrite Hoff, andb_false_r. simpl. auto.
  - intros E. contradiction.
Qed.

Lemma step_switchOk w ev : switchOk w -> switchOk (step w ev).
Proof.
  intros H. destruct ev; simpl.
  - (* initialize *)
    destruct H as [H1 H2 H3 H4 H5].
    unfold initializeTileRefreshPause, applyTileRefreshPause,
      initializeSmartTileCache, clearSmartTileCache, saveCacheStatistics,
      getTileRefreshPaused.
    destruct w as [p o f c e s a h m t d g l i]; simpl in *.
    assert (Hs : getSmartTileCacheEnabled (mkWorld p o f c e s a h m t d g l i) = false
                 -> s = []).
    { intros Hg. destruct o as [fn|].
      - apply H2. rewrite <- H3; [exact Hg | discriminate].
      - now destruct H4. }
    unfold getSmartTileCacheEnabled in *. simpl in *.
    destruct (ls_bmSmartTileCacheVersion l) as [v|]; [destruct (String.eqb v cacheVersion)|];
      simpl;
      destruct (match g with Some g0 => gm_bmTileRefreshPaused g0 | None => None end)
        as [[|]|]; simpl;
      try destruct (ls_bmTileRefreshPaused l) as [[|]|]; simpl;
      destruct o as [fn|]; simpl;
      constructor; simpl; auto; try discriminate; try (intros E; contradiction).
    all: intros fn' E; injection E as <-; destruct (H4 eq_refl) as (_ & _ & Hd);
      exact Hd.
  - (* toggle pause *)
    destruct H as [H1 H2 H3 H4 H5].
    unfold toggleTileRefreshPause, applyTileRefreshPause, saveTileRefreshPaused.
    destruct w as [p o f c e s a h m t d g l i]; simpl in *.
    unfold getSmartTileCacheEnabled in *. simpl in *.
    destruct p, g as [g0|], o as [fn|]; simpl in *;
      constructor; simpl; auto; try discriminate; try (intros E; contradiction).
    all: intros _; destruct (H4 eq_refl) as (? & ? & ?); auto.
  - (* toggle cache *)
    destruct H as [H1 H2 H3 H4 H5].
    unfold toggleSmartTileCache, saveSmartTileCacheEnabled, clearSmartTileCache,
      saveCacheStatistics.
    destruct w as [p o f c e s a h m t d g l i]; simpl in *.
    unfold getSmartTileCacheEnabled in *. simpl in *.
    destruct e, g as [g0|]; simpl in *;
      constructor; simpl; auto; try discriminate.
    all: intros Ho; destruct (H4 Ho) as (? & ? & ?); auto.
  - (* invalidate *)
    unfold invalidateCacheForSettingsChange.
    destruct (_ && _) eqn:E; [|exact H].
    apply andb_true_iff in E. destruct E as [Hen _].
    destruct (clearSmartTileCache_switches w) as (Hs & _ & Hc & _).
    pose proof (getSmartTileCacheEnabled_switches _ _ Hs) as Hg.
    destruct H as [H1 H2 H3 H4 H5].
    unfold switches in Hs. injection Hs as E1 E2 E3 E4 E5 E6 E7 E8.
    constructor; rewrite ?E1, ?E2, ?E4, ?E5, ?E8, ?Hc, ?Hg; auto.
    intros Ho. destruct (H4 Ho) as (? & ? & ?); auto.
  - destruct w, H; constructor; assumption.
  - destruct w, H; constructor; assumption.
  - (* draw *)
    destruct (callDraw_switches (drawTemplateOnTile w) tileBlob tileCoords
                templatesArray now w) as (Hs & _ & Hc & _).
    assert (Hw : switchOk (afterDraw (callDraw (drawTemplateOnTile w) tileBlob
                                        tileCoords templatesArray now w)))
      by (eapply switchOk_same; eauto).
    destruct (callDraw _ _ _ _ _ _) as [r w'|p w'|w'] eqn:Ecall; simpl in *; auto.
    apply switchOk_set_inflight; [|exact Hw].
    unfold switches in Hs. injection Hs as _ E2 _ _ _ _ _ _. rewrite E2.
    intros Ho. destruct (sw_before _ H Ho) as (_ & _ & [Hd|Hd]);
      rewrite Hd in Ecall; discriminate.
  - (* settle *)
    destruct (nth_error (inflight w) i) as [p|] eqn:En; [|exact H].
    assert (Ho : originalDrawTemplateOnTile w <> None).
    { intros Ho. destruct (sw_before _ H Ho) as (_ & Hi & _).
      rewrite Hi in En. destruct i; discriminate. }
    apply switchOk_wrapperEnd.
    + destruct w; exact Ho.
    + now apply switchOk_set_inflight.
Qed.

Lemma run_switchOk evs w : switchOk w -> switchOk (run w evs).
Proof.
  revert w. induction evs as [|ev evs IH]; intros w H; [exact H|].
  simpl. apply IH. now apply step_switchOk.
Qed.

(** ** Requests while paused *)

Lemma pausedDraw_lookup b c w :
  pausedDraw b c w
  = match JsMap.get (coordsKey c) (frozenTileCache w) with
    | Some frozen => frozen
    | None => b
    end.
Proof.
  unfold pausedDraw, JsMap.has, getTile.
  now destruct (JsMap.get (coordsKey c) (frozenTileCache w)).
Qed.

(** C1: in every state a run of the module reaches with the pause flag
    set, a draw request returns the frozen value stored under the tile's
    coordinate key when there is one and the input blob otherwise; it does
    so without calling the compositing function, and changes nothing. *)
Theorem paused_draw_uses_frozen_cache g l evs
    (tileBlob : Tile) (tileCoords : Coords)
    (templatesArray : option (list Template)) (now : Z) :
  let w := run (moduleLoaded g l) evs in
  tileRefreshPaused w = true ->
  let d := callDraw (drawTemplateOnTile w) tileBlob tileCoords templatesArray now w in
  d = Returned
        match JsMap.get (coordsKey tileCoords) (frozenTileCache w) with
        | Some frozen => frozen
        | None => tileBlob
        end w
  /\ invokesCompositing d = false
  /\ step w (EvDraw tileBlob tileCoords templatesArray now) = w.
Proof.
  intros w Hp d. subst d.
  pose proof (run_switchOk evs _ (switchOk_moduleLoaded g l)) as Hok.
  fold w in Hok. pose proof (sw_paused _ Hok Hp) as Hslot.
  simpl. rewrite Hslot. simpl. rewrite pausedDraw_lookup. auto.
Qed.

(** ** A failing compositing call *)

(** C6: when the awaited compositing call rejects, the wrapper rejects with
    the same reason and leaves the whole state as it was at that moment, so
    nothing is written to the smart cache, its ledger or the frozen cache;
    the part of the request before the call never writes to the smart cache
    or the frozen cache either. *)
Theorem rejection_propagates_uncached :
  (forall p reason now w,
      wrapperEnd p (Rejected reason) now w = (Rejected reason, w))
  /\ (forall w i p reason now,
        nth_error (inflight w) i = Some p -> p_settled p = None ->
        let w' := step w (EvSettle i (Rejected reason) now) in
        smartTileCache w' = smartTileCache w
        /\ cacheAccessOrder w' = cacheAccessOrder w
        /\ frozenTileCache w' = frozenTileCache w)
  /\ (forall fn b c ts now w,
        let w' := afterDraw (callDraw fn b c ts now w) in
        smartTileCache w' = smartTileCache w
        /\ frozenTileCache w' = frozenTileCache w).
Proof.
  split; [reflexivity|]. split.
  - intros w i p reason now Hn Hs. simpl. rewrite Hn, Hs. simpl.
    destruct w; simpl; auto.
  - intros fn b c ts now w. simpl.
    destruct (callDraw_switches fn b c ts now w) as (_ & Hf & Hc & _). auto.
Qed.

(** ** The frozen tile cache *)

Lemma frozenOk_same w w' :
  frozenTileCache w' = frozenTileCache w -> frozenOk w -> frozenOk w'.
Proof. intros E [H1 H2]. constructor; rewrite E; assumption. Qed.

Lemma length_set_present {V : Type} k (v : V) m :
  JsMap.has k m = true -> List.length (JsMap.set k v m) = List.length m.
Proof.
  intros H. rewrite <- !length_keys. now rewrite set_present.
Qed.

(** What lines 281-291 do to a frozen cache within its bound. *)
Lemma storeFrozen_cases c r w :
  frozenOk w ->
  frozenTileCache (storeFrozen c r w)
  = if JsMap.has (coordsKey c) (frozenTileCache w)
    then JsMap.set (coordsKey c) r (frozenTileCache w)
    else if JsMap.size (frozenTileCache w) =? 100
         then tl (frozenTileCache w) ++ [(coordsKey c, r)]
         else frozenTileCache w ++ [(coordsKey c, r)].
Proof.
  intros [Hnd Hsz]. unfold storeFrozen.
  destruct w as [p o f ca e s a h m t d g l i]; simpl in *.
  unfold JsMap.size in *.
  destruct (JsMap.has (coordsKey c) f) eqn:Eh.
  - rewrite (length_set_present _ _ _ Eh).
    destruct (Z.ltb_spec 100 (Z.of_nat (List.length f))); [lia|reflexivity].
  - pose proof (NoDup_keys_set (coordsKey c) r f Hnd) as Hnd'.
    rewrite (set_absent _ _ _ Eh) in *. rewrite length_app. simpl List.length.
    destruct (Z.eqb_spec (Z.of_nat (List.length f)) 100) as [E|E].
    + destruct (Z.ltb_spec 100 (Z.of_nat (List.length f + 1))); [|lia].
      destruct f as [|[k0 v0] f']; [simpl in E; lia|].
      simpl JsMap.firstKey. cbv iota beta. simpl set_frozenTileCache.
      simpl frozenTileCache.
      change (((k0, v0) :: f') ++ [(coordsKey c, r)])
        with ((k0, v0) :: (f' ++ [(coordsKey c, r)])) in *.
      transitivity (JsMap.delete k0 ((k0, v0) :: (f' ++ [(coordsKey c, r)])));
        [reflexivity | now rewrite delete_head_NoDup].
    + destruct (Z.ltb_spec 100 (Z.of_nat (List.length f + 1))); [lia|reflexivity].
Qed.

Lemma storeFrozen_ok c r w : frozenOk w -> frozenOk (storeFrozen c r w).
Proof.
  intros H. pose proof (storeFrozen_cases c r w H) as E.
  destruct H as [Hnd Hsz]. constructor; rewrite E; unfold JsMap.size in *.
  - destruct (JsMap.has (coordsKey c) (frozenTileCache w)) eqn:Eh.
    + now apply NoDup_keys_set.
    + pose proof (NoDup_keys_set (coordsKey c) r _ Hnd) as Hnd'.
      rewrite (set_absent _ _ _ Eh) in Hnd'.
      destruct (_ =? 100); [|exact Hnd'].
      destruct (frozenTileCache w) as [|e f']; [exact Hnd'|].
      simpl in *. now apply NoDup_cons_iff in Hnd'.
  - destruct (JsMap.has (coordsKey c) (frozenTileCache w)) eqn:Eh.
    + now rewrite (length_set_present _ _ _ Eh).
    + destruct (Z.eqb_spec (Z.of_nat (List.length (frozenTileCache w))) 100) as [E'|E'];
        rewrite length_app; simpl List.length.
      * destruct (frozenTileCache w); simpl in *; lia.
      * lia.
Qed.

Lemma frozenOk_moduleLoaded g l : frozenOk (moduleLoaded g l).
Proof. constructor; simpl; [constructor | unfold JsMap.size; simpl; lia]. Qed.

Lemma wrapperEnd_frozenOk p o now w :
  frozenOk w -> frozenOk (snd (wrapperEnd p o now w)).
Proof.
  intros H. unfold wrapperEnd. destruct o as [result|reason]; [|exact H].
  destruct (_ && _); [|exact H]. simpl. apply storeFrozen_ok.
  eapply frozenOk_same; [|exact H]. apply storeInSmartCache_switches.
Qed.

Lemma step_frozen_unchanged w ev :
  match ev with
  | EvSettle _ _ _ | EvClearFrozen => True
  | _ => frozenTileCache (step w ev) = frozenTileCache w
  end.
Proof.
  destruct ev; simpl; auto.
  - unfold initializeTileRefreshPause, applyTileRefreshPause,
      initializeSmartTileCache, clearSmartTileCache, saveCacheStatistics.
    destruct w; simpl. split_ifs; reflexivity.
  - unfold toggleTileRefreshPause, applyTileRefreshPause, saveTileRefreshPaused.
    destruct w; simpl. split_ifs; reflexivity.
  - unfold toggleSmartTileCache, saveSmartTileCacheEnabled, clearSmartTileCache,
      saveCacheStatistics.
    destruct w; simpl. split_ifs; reflexivity.
  - unfold invalidateCacheForSettingsChange.
    destruct (_ && _); [apply clearSmartTileCache_switches | reflexivity].
  - destruct w; reflexivity.
  - destruct (callDraw_switches (drawTemplateOnTile w) tileBlob tileCoords
                templatesArray now w) as (_ & Hf & _).
    destruct (callDraw _ _ _ _ _ _) as [r w'|p w'|w']; simpl in *; auto.
    destruct w'; exact Hf.
Qed.

Lemma step_frozenOk w ev : frozenOk w -> frozenOk (step w ev).
Proof.
  intros H. pose proof (step_frozen_unchanged w ev) as E.
  destruct ev; try (eapply frozenOk_same; [exact E | exact H]).
  - destruct w; constructor; simpl; [constructor | unfold JsMap.size; simpl; lia].
  - simpl. destruct (nth_error (inflight w) i) as [p|]; [|exact H].
    apply wrapperEnd_frozenOk. destruct w, H; now constructor.
Qed.

Lemma run_frozenOk evs w : frozenOk w -> frozenOk (run w evs).
Proof.
  revert w. induction evs as [|ev evs IH]; intros w H; [exact H|].
  simpl. apply IH. now apply step_frozenOk.
Qed.

(** C7: in every state a run of the module reaches, the frozen tile cache
    holds at most 100 tiles.  Storing a result for a tile that is already
    there replaces its value in place; storing one for a new tile appends
    it, and when the cache already held 100 tiles exactly one entry goes:
    the first of the cache, that is the one inserted longest ago, whatever
    has been read since. *)
Theorem frozen_cache_bounded_fifo g l evs :
  let w := run (moduleLoaded g l) evs in
  JsMap.size (frozenTileCache w) <= 100
  /\ (forall c r,
        let frozen' := frozenTileCache (storeFrozen c r w) in
        JsMap.size frozen' <= 100
        /\ frozen'
           = if JsMap.has (coordsKey c) (frozenTileCache w)
             then JsMap.set (coordsKey c) r (frozenTileCache w)
             else if JsMap.size (frozenTileCache w) =? 100
                  then tl (frozenTileCache w) ++ [(coordsKey c, r)]
                  else frozenTileCache w ++ [(coordsKey c, r)])
  /\ (forall p result now,
        tileRefreshPaused w = false -> isCapturingState w = false ->
        smartTileCacheEnabled w = true ->
        frozenTileCache (snd (wrapperEnd p (Resolved result) now w))
        = frozenTileCache (storeFrozen (p_tileCoords p) result w)).
Proof.
  intros w. pose proof (run_frozenOk evs _ (frozenOk_moduleLoaded g l)) as H.
  fold w in H. split; [apply (fr_size _ H)|]. split.
  - intros c r frozen'. split.
    + apply (fr_size _ (storeFrozen_ok c r w H)).
    + now apply storeFrozen_cases.
  - intros p result now Hp Hc He. unfold wrapperEnd. rewrite Hp, Hc, He. simpl.
    destruct (storeInSmartCache_switches (p_cacheKey p) result now w) as (_ & Hf & _).
    unfold storeFrozen. generalize dependent (storeInSmartCache (p_cacheKey p) result now w).
    intros w1 Hf. destruct w1, w; simpl in *. subst. split_ifs; reflexivity.
Qed.

(** ** Persisting the statistics *)



(** ** Switching the cache on and off *)

(** C10: in every state, switching the cache off empties the cache and
    the ledger, zeroes both counters and stores the zeroed statistics.  In
    every state a run of the module reaches with the cache off, the cache and
    the ledger are empty, and switching the cache on changes neither them nor
    the counters nor the stored statistics. *)
Theorem toggle_cache_clears_when_switched_off :
  (forall w,
      let w' := snd (toggleSmartTileCache w) in
      fst (toggleSmartTileCache w) = negb (smartTileCacheEnabled w)
      /\ smartTileCacheEnabled w' = negb (smartTileCacheEnabled w)
      /\ (smartTileCacheEnabled w = true ->
          smartTileCache w' = [] /\ cacheAccessOrder w' = []
          /\ cacheHits w' = 0 /\ cacheMisses w' = 0
          /\ ls_bmSmartTileCacheStats (localStorage w') = Some (0, 0)))
  /\ (forall g l evs,
        let w := run (moduleLoaded g l) evs in
        let w' := snd (toggleSmartTileCache w) in
        smartTileCacheEnabled w = false ->
        smartTileCache w = [] /\ cacheAccessOrder w = []
        /\ smartTileCache w' = smartTileCache w
        /\ cacheAccessOrder w' = cacheAccessOrder w
        /\ cacheHits w' = cacheHits w /\ cacheMisses w' = cacheMisses w
        /\ ls_bmSmartTileCacheStats (localStorage w')
           = ls_bmSmartTileCacheStats (localStorage w)).
Proof.
  split.
  - intros w. simpl.
    unfold toggleSmartTileCache, saveSmartTileCacheEnabled, clearSmartTileCache,
      saveCacheStatistics.
    split; [|split].
    + destruct w as [? ? ? ? [|] ? ? ? ? ? ? [?|] ? ?]; reflexivity.
    + destruct w as [? ? ? ? [|] ? ? ? ? ? ? [?|] ? ?]; reflexivity.
    + intros He. destruct w as [? ? ? ? ? ? ? ? ? ? ? [?|] ? ?]; simpl in *;
        subst; simpl; auto.
  - intros g l evs w w' He.
    pose proof (run_switchOk evs _ (switchOk_moduleLoaded g l)) as Hsw.
    pose proof (run_lruOk evs _ (lruOk_moduleLoaded g l)) as Hlru.
    fold w in Hsw, Hlru. subst w'. clearbody w.
    pose proof (sw_off _ Hsw He) as Hs.
    pose proof (lru_keys _ Hlru) as Hk. rewrite Hs in Hk.
    assert (Ha : cacheAccessOrder w = []).
    { destruct (cacheAccessOrder w); [reflexivity|discriminate]. }
    unfold toggleSmartTileCache, saveSmartTileCacheEnabled, clearSmartTileCache,
      saveCacheStatistics.
    destruct w as [? ? ? ? ? ? ? ? ? ? ? [?|] ? ?]; simpl in *;
      subst; simpl; auto 10.
Qed.

(** ** Instances *)

Lemma paused_draw_witness :
  let w := run (moduleLoaded None emptyLocalStorage) pausedRun in
  tileRefreshPaused w = true
  /\ callDraw (drawTemplateOnTile w) sampleBlob (CoordsArray 12 7) None 3000 w
     = Returned sampleComposite w
  /\ callDraw (drawTemplateOnTile w) sampleBlob (CoordsArray 1 1) None 3000 w
     = Returned sampleBlob w.
Proof.
  split; [reflexivity|]. split.
  - exact (proj1 (paused_draw_uses_frozen_cache None emptyLocalStorage pausedRun
                    sampleBlob (CoordsArray 12 7) None 3000 eq_refl)).
  - exact (proj1 (paused_draw_uses_frozen_cache None emptyLocalStorage pausedRun
                    sampleBlob (CoordsArray 1 1) None 3000 eq_refl)).
Defined.

Lemma key_order_independent_witness :
  generateCacheKey (CoordsArray 12 7) (Some [templateA true; templateB true]) sampleBlob
  = generateCacheKey (CoordsArray 12 7) (Some [templateB true; templateA true]) sampleBlob
  /\ generateCacheKey (CoordsArray 12 7) (Some [templateA true; templateB true]) sampleBlob
     <> generateCacheKey (CoordsArray 12 7) (Some [templateA true; templateB false]) sampleBlob.
Proof.
  split.
  - apply (proj1 (key_order_independent_enabled_sensitive (CoordsArray 12 7) sampleBlob
                    [templateA true; templateB true] [templateB true; templateA true])).
    apply perm_swap.
  - apply (proj2 (key_order_independent_enabled_sensitive (CoordsArray 12 7) sampleBlob
                    [templateA true; templateB true] [templateA true; templateB false])).
    + repeat constructor.
    + repeat constructor; simpl; intuition discriminate.
    + repeat constructor.
    + discriminate.
Defined.

Lemma distinctKeys_sound ks : distinctKeys ks = true -> NoDup ks.
Proof.
  induction ks as [|k ks IH]; simpl; intros H; constructor;
    apply andb_true_iff in H; destruct H as [Hk Hks]; [|auto].
  intros Hin. apply negb_true_iff in Hk.
  assert (E : existsb (String.eqb k) ks = true)
    by (apply existsb_exists; exists k; split; [exact Hin | apply String.eqb_refl]).
  congruence.
Defined.



Lemma rejection_witness :
  let w := run (moduleLoaded None emptyLocalStorage)
             [EvInitialize; EvDraw sampleBlob (CoordsArray 12 7) None 1000] in
  let w' := step w (EvSettle 0 (Rejected "network") 1001) in
  List.length (inflight w) = 1%nat
  /\ smartTileCache w' = smartTileCache w
  /\ cacheAccessOrder w' = cacheAccessOrder w
  /\ frozenTileCache w' = frozenTileCache w.
Proof.
  split; [reflexivity|].
  eapply (proj1 (proj2 rejection_propagates_uncached)); reflexivity.
Defined.

Lemma frozen_cache_witness :
  let w := run (moduleLoaded None emptyLocalStorage) [EvInitialize] in
  let p := mkPending "k" (CoordsArray 12 7) None in
  tileRefreshPaused w = false /\ isCapturingState w = false
  /\ smartTileCacheEnabled w = true
  /\ frozenTileCache (snd (wrapperEnd p (Resolved sampleComposite) 1001 w))
     = [("0012,0007"%string, sampleComposite)].
Proof.
  split; [reflexivity | split; [reflexivity | split; [reflexivity|]]].
  rewrite (proj2 (proj2 (frozen_cache_bounded_fifo None emptyLocalStorage [EvInitialize]))
             (mkPending "k" (CoordsArray 12 7) None) sampleComposite 1001
             eq_refl eq_refl eq_refl).
  reflexivity.
Defined.

Lemma ledger_keys_witness :
  let w := moduleLoaded None emptyLocalStorage in
  ledgerMatches w
  /\ ledgerMatches (storeInSmartCache "k" sampleComposite 1000 w)
  /\ ledgerMatches (snd (getFromSmartCache "k" 1000 w)).
Proof.
  split; [reflexivity|].
  destruct (proj2 ledger_keys_match_store (moduleLoaded None emptyLocalStorage)
              "k"%string sampleComposite 1000 eq_refl) as (H1 & H2 & _).
  split; assumption.
Defined.


Lemma toggle_cache_witness :
  let on := run (moduleLoaded None emptyLocalStorage) pausedRun in
  let off := run (moduleLoaded None emptyLocalStorage) (pausedRun ++ [EvToggleCache]) in
  smartTileCacheEnabled on = true
  /\ smartTileCache on <> []
  /\ smartTileCache (snd (toggleSmartTileCache on)) = []
  /\ smartTileCacheEnabled off = false
  /\ smartTileCache (snd (toggleSmartTileCache off)) = smartTileCache off.
Proof.
  split; [reflexivity|]. split; [discriminate|]. split; [|split; [reflexivity|]].
  - exact (proj1 (proj2 (proj2 (proj1 toggle_cache_clears_when_switched_off
             (run (moduleLoaded None emptyLocalStorage) pausedRun))) eq_refl)).
  - pose proof (proj2 toggle_cache_clears_when_switched_off
             None emptyLocalStorage (pausedRun ++ [EvToggleCache]) eq_refl) as H.
    exact (proj1 (proj2 (proj2 H))).
Defined.

(** * Further properties *)

(** ** Coordinate keys and content signatures *)

Lemma to_int_proper (z : Z) :
  Z.to_int z <> Decimal.Pos Decimal.Nil /\ Z.to_int z <> Decimal.Neg Decimal.Nil.
Proof.
  destruct z as [|p|p]; simpl; split; try discriminate;
    intros H; injection H as H; exact (DecimalPos.Unsigned.to_uint_nonnil p H).
Qed.

Lemma toString_inj (a b : Z) : Js.toString a = Js.toString b -> a = b.
Proof.
  unfold Js.toString. intros H.
  apply (f_equal NilZero.int_of_string) in H.
  destruct (to_int_proper a) as [Ha1 Ha2], (to_int_proper b) as [Hb1 Hb2].
  rewrite !NilZero.isi in H by assumption.
  injection H as H. now apply DecimalZ.to_int_inj.
Qed.

Lemma lacks_append c s t : lacks c (s ++ t)%string = lacks c s && lacks c t.
Proof.
  induction s as [|d s IH]; simpl; [reflexivity|].
  rewrite IH. now rewrite andb_assoc.
Qed.

Lemma lacks_uint c d :
  lacks c "0123456789" = true -> lacks c (NilEmpty.string_of_uint d) = true.
Proof.
  intros H. simpl in H.
  repeat (apply andb_true_iff in H; destruct H as [? H]).
  induction d; simpl; auto; apply andb_true_iff; split; assumption.
Qed.

Lemma lacks_toString c n :
  lacks c "-0123456789" = true -> lacks c (Js.toString n) = true.
Proof.
  intros H. simpl in H. apply andb_true_iff in H. destruct H as [Hm H].
  unfold Js.toString, NilZero.string_of_int, NilZero.string_of_uint.
  destruct (Z.to_int n) as [d|d]; destruct d; simpl;
    rewrite ?Hm; simpl; try (apply andb_true_iff; split);
    auto using lacks_uint;
    simpl in H; repeat (apply andb_true_iff in H; destruct H as [? H]); auto.
Qed.

Lemma lacks_repeat0 c n : lacks c "0" = true -> lacks c (Js.repeat0 n) = true.
Proof.
  simpl. rewrite andb_true_r. intros H.
  induction n as [|n IH]; simpl; [reflexivity|]. now rewrite H.
Qed.

Lemma lacks_padStart c width n :
  lacks c "-0123456789" = true -> lacks c (Js.padStart width (Js.toString n)) = true.
Proof.
  intros H. unfold Js.padStart. rewrite lacks_append, lacks_toString by exact H.
  rewrite lacks_repeat0; [reflexivity|].
  simpl in *. apply andb_true_iff in H. destruct H as [_ H].
  apply andb_true_iff in H. destruct H as [H _]. now rewrite H.
Qed.

(** Two strings split at the first occurrence of a separator. *)
Lemma split_at c (a b r1 r2 : string) :
  lacks c a = true -> lacks c b = true ->
  (a ++ String c r1 = b ++ String c r2)%string -> a = b /\ r1 = r2.
Proof.
  revert b. induction a as [|d a IH]; intros [|e b] Ha Hb H; simpl in *.
  - injection H as H. auto.
  - injection H as <- _. rewrite Ascii.eqb_refl in Hb. discriminate.
  - injection H as -> _. rewrite Ascii.eqb_refl in Ha. discriminate.
  - injection H as -> H. apply andb_true_iff in Ha, Hb.
    destruct (IH b (proj2 Ha) (proj2 Hb) H) as [-> ->]. auto.
Qed.

Lemma strip0_repeat0 n s : strip0 (Js.repeat0 n ++ s) = strip0 s.
Proof. induction n as [|n IH]; simpl; auto. Qed.

Lemma uint_head_nonzero (p : positive) :
  strip0 (NilEmpty.string_of_uint (Pos.to_uint p)) = NilEmpty.string_of_uint (Pos.to_uint p)
  /\ NilEmpty.string_of_uint (Pos.to_uint p) <> EmptyString.
Proof.
  pose proof (DecimalPos.Unsigned.to_uint_nonnil p) as Hnil.
  pose proof (DecimalPos.Unsigned.to_uint_nonzero p) as Hnz.
  assert (Hnorm : Decimal.unorm (Pos.to_uint p) = Pos.to_uint p).
  { pose proof (DecimalPos.Unsigned.to_of (Pos.to_uint p)) as H.
    rewrite DecimalPos.Unsigned.of_to in H. simpl in H. now symmetry. }
  assert (Hhead : forall d', Pos.to_uint p <> Decimal.D0 d').
  { intros d' E. rewrite <- Hnorm in E.
    unfold Decimal.unorm in E.
    destruct (Decimal.nzhead (Pos.to_uint p)) eqn:En;
      try discriminate.
    - injection E as <-. apply Hnz. rewrite <- Hnorm. unfold Decimal.unorm.
      now rewrite En.
    - exact (DecimalFacts.nzhead_nonzero _ _ En). }
  destruct (Pos.to_uint p) as [|d|d|d|d|d|d|d|d|d|d]; simpl; split;
    try reflexivity; try discriminate; try (now elim Hnil);
    now elim (Hhead d).
Qed.

Lemma strip0_toString (z : Z) :
  strip0 (Js.toString z) = if z =? 0 then EmptyString else Js.toString z.
Proof.
  destruct z as [|p|p]; [reflexivity| |reflexivity].
  unfold Js.toString. simpl.
  destruct (uint_head_nonzero p) as [Hs Hne].
  unfold NilZero.string_of_uint.
  destruct (Pos.to_uint p); try exact Hs. now elim Hne.
Qed.

Lemma toString_nonempty (z : Z) : Js.toString z <> EmptyString.
Proof.
  destruct z as [|p|p]; try discriminate.
  unfold Js.toString. simpl. unfold NilZero.string_of_uint.
  destruct (uint_head_nonzero p) as [_ Hne].
  destruct (Pos.to_uint p); try exact Hne. discriminate.
Qed.

Lemma padStart_toString_inj width (a b : Z) :
  Js.padStart width (Js.toString a) = Js.padStart width (Js.toString b) -> a = b.
Proof.
  unfold Js.padStart. intros H. apply (f_equal strip0) in H.
  rewrite !strip0_repeat0, !strip0_toString in H.
  destruct (a =? 0) eqn:Ea; destruct (b =? 0) eqn:Eb.
  - apply Z.eqb_eq in Ea, Eb. congruence.
  - symmetry in H. now apply toString_nonempty in H.
  - now apply toString_nonempty in H.
  - now apply toString_inj.
Qed.

(** X1: two coordinate arrays get the same coordinate key (the key of
    the frozen tile cache) only when they are the same pair of integers;
    hence two requests that differ only in the tile never share a smart
    cache key either. *)
Theorem coordsKey_array_injective (x y x' y' : Z) :
  (coordsKey (CoordsArray x y) = coordsKey (CoordsArray x' y') ->
   x = x' /\ y = y')
  /\ (forall ts b,
        generateCacheKey (CoordsArray x y) ts b
        = generateCacheKey (CoordsArray x' y') ts b ->
        x = x' /\ y = y').
Proof.
  assert (Hinj : coordsKey (CoordsArray x y) = coordsKey (CoordsArray x' y') ->
                 x = x' /\ y = y').
  { simpl. intros H.
    destruct (split_at ","%char _ _ _ _
                (lacks_padStart ","%char 4 x eq_refl)
                (lacks_padStart ","%char 4 x' eq_refl) H) as [Hx Hy].
    split; eapply padStart_toString_inj; eassumption. }
  split; [exact Hinj|].
  intros ts b H. apply Hinj. unfold generateCacheKey in H.
  now apply append_cancel_r in H.
Qed.

Lemma contentHash_sized (b : Blob) :
  size b <> 0 ->
  contentHash (Some b) = (Js.toString (size b) ++ String "_" (type b))%string.
Proof.
  intros H. simpl. destruct (Z.eqb_spec (size b) 0); [contradiction|reflexivity].
Qed.

Lemma generateCacheKey_content_inj c ts b1 b2 :
  generateCacheKey c ts b1 = generateCacheKey c ts b2 ->
  contentHash b1 = contentHash b2.
Proof.
  unfold generateCacheKey. intros H.
  apply append_cancel_l in H. simpl in H. injection H as H.
  apply append_cancel_l in H. simpl in H. now injection H as H.
Qed.

(** X2: two requests for the same tile and templates whose payloads have a
    size get the same key only when the payloads agree in size and in type,
    and none of them gets the key of a request without payload data. *)
Theorem key_separates_payloads c ts (b1 b2 : Blob) :
  size b1 <> 0 -> size b2 <> 0 ->
  (generateCacheKey c ts (Some b1) = generateCacheKey c ts (Some b2) ->
   size b1 = size b2 /\ type b1 = type b2)
  /\ generateCacheKey c ts (Some b1) <> generateCacheKey c ts None.
Proof.
  intros H1 H2. split.
  - intros H. apply generateCacheKey_content_inj in H.
    rewrite !contentHash_sized in H by assumption.
    destruct (split_at "_"%char _ _ _ _
                (lacks_toString "_"%char (size b1) eq_refl)
                (lacks_toString "_"%char (size b2) eq_refl) H) as [Hs Ht].
    split; [now apply toString_inj | exact Ht].
  - intros H. apply generateCacheKey_content_inj in H.
    rewrite contentHash_sized in H by assumption.
    apply (f_equal (lacks "_"%char)) in H. rewrite lacks_append in H.
    simpl in H. rewrite andb_false_r in H. discriminate.
Qed.

(** ** Order of eviction *)

Lemma insertByTime_sorted e l :
  Sorted.StronglySorted byTime l -> Sorted.StronglySorted byTime (insertByTime e l).
Proof.
  induction 1 as [|e' l Hs IH Hall]; simpl.
  - constructor; constructor.
  - destruct (Z.leb_spec (snd e - snd e') 0) as [Hle|Hgt].
    + constructor; [now constructor|]. constructor; [unfold byTime; lia|].
      eapply Forall_impl; [|exact Hall]. unfold byTime. intros x Hx. lia.
    + constructor; [exact IH|].
      eapply Permutation_Forall; [symmetry; apply insertByTime_perm|].
      constructor; [unfold byTime; lia | exact Hall].
Qed.

Lemma sortByTime_StronglySorted l : Sorted.StronglySorted byTime (sortByTime l).
Proof.
  induction l as [|e l IH]; simpl; [constructor|]. now apply insertByTime_sorted.
Qed.

Lemma StronglySorted_app_le {A : Type} (R : A -> A -> Prop) (a b : list A) x y :
  Sorted.StronglySorted R (a ++ b) -> In x a -> In y b -> R x y.
Proof.
  induction a as [|z a IH]; simpl; [tauto|].
  intros Hs Hx Hy. apply Sorted.StronglySorted_inv in Hs. destruct Hs as [Hs Hall].
  destruct Hx as [->|Hx]; [|auto].
  rewrite Forall_forall in Hall. apply Hall, in_or_app. now right.
Qed.

Lemma get_In {V : Type} k (v : V) (m : list (string * V)) :
  JsMap.get k m = Some v -> In (k, v) m.
Proof.
  induction m as [|[k' v'] m IH]; simpl; [discriminate|].
  destruct (String.eqb_spec k' k) as [->|Hne].
  - intros H. injection H as ->. now left.
  - intros H. right. auto.
Qed.

Lemma In_get {V : Type} k (v : V) (m : list (string * V)) :
  NoDup (JsMap.keys m) -> In (k, v) m -> JsMap.get k m = Some v.
Proof.
  induction m as [|[k' v'] m IH]; simpl; [tauto|].
  intros Hnd Hin. apply NoDup_cons_iff in Hnd. destruct Hnd as [Hk Hnd].
  destruct (String.eqb_spec k' k) as [->|Hne].
  - destruct Hin as [E|Hin]; [now injection E as ->|].
    elim Hk. change k with (fst (k, v)). now apply in_map.
  - destruct Hin as [E|Hin]; [injection E as E _; contradiction|auto].
Qed.

Lemma In_keys_entry {V : Type} k (m : list (string * V)) :
  In k (JsMap.keys m) -> exists v, In (k, v) m.
Proof.
  unfold JsMap.keys. intros H. apply in_map_iff in H.
  destruct H as ([k' v] & E & Hin). simpl in E. subst k'. now exists v.
Qed.

Lemma get_filter_kept {V : Type} ks k (m : list (string * V)) :
  keptKey ks k = true ->
  JsMap.get k (filter (fun e => keptKey ks (fst e)) m) = JsMap.get k m.
Proof.
  intros Hk. induction m as [|[k' v'] m IH]; simpl; [reflexivity|].
  destruct (keptKey ks k') eqn:Ek'; simpl.
  - now rewrite IH.
  - destruct (String.eqb_spec k' k) as [->|Hne]; [congruence|exact IH].
Qed.

Lemma has_filter_kept {V : Type} ks k (m : list (string * V)) :
  JsMap.has k (filter (fun e => keptKey ks (fst e)) m)
  = keptKey ks k && JsMap.has k m.
Proof.
  destruct (keptKey ks k) eqn:Ek; simpl.
  - unfold JsMap.has. now rewrite get_filter_kept.
  - apply not_in_has_false. rewrite keys_filter_fst. intros H.
    apply filter_In in H. destruct H as [_ H]. congruence.
Qed.

Lemma keptKey_false_in ks k : keptKey ks k = false -> In k ks.
Proof.
  unfold keptKey. intros H. apply negb_false_iff in H.
  apply existsb_exists in H. destruct H as (y & Hy & E).
  apply String.eqb_eq in E. now subst.
Qed.

(** X3: an eviction from a cache of more than [maxCacheSize] entries leaves
    [maxCacheSize - 10] entries, keeps the ledger in step, leaves the
    remaining entries as they were, and removes only entries that were
    accessed no later than every entry it keeps. *)
Theorem eviction_takes_oldest (w : World) :
  ledgerMatches w ->
  NoDup (JsMap.keys (smartTileCache w)) ->
  maxCacheSize < JsMap.size (smartTileCache w) ->
  let w' := evictLRUEntries w in
  JsMap.size (smartTileCache w') = maxCacheSize - 10
  /\ ledgerMatches w'
  /\ (forall k, JsMap.has k (smartTileCache w') = true ->
                JsMap.get k (smartTileCache w') = JsMap.get k (smartTileCache w))
  /\ (forall k1 k2 t1 t2,
        JsMap.get k1 (cacheAccessOrder w) = Some t1 ->
        JsMap.get k2 (cacheAccessOrder w) = Some t2 ->
        JsMap.has k1 (smartTileCache w') = false ->
        JsMap.has k2 (smartTileCache w') = true ->
        t1 <= t2).
Proof.
  intros Hm Hnd Hsz w'.
  destruct (evictedKeys_facts w Hm Hnd Hsz) as (Hev1 & Hev2 & Hev3).
  assert (Hstore : smartTileCache w'
                   = filter (fun e => keptKey (evictedKeys w) (fst e)) (smartTileCache w)).
  { unfold w'. rewrite evictLRUEntries_closed.
    destruct (Z.leb_spec (JsMap.size (smartTileCache w)) maxCacheSize); [lia|].
    rewrite <- removeKeys_filter. destruct w; reflexivity. }
  split; [|split; [|split]].
  - rewrite Hstore. unfold JsMap.size in *.
    rewrite <- length_keys, keys_filter_fst.
    pose proof (length_filter_kept _ _ Hnd Hev1 Hev2) as Hc.
    rewrite length_keys in Hc. lia.
  - now apply evictLRUEntries_matches.
  - intros k Hk. rewrite Hstore in *. rewrite has_filter_kept in Hk.
    apply andb_true_iff in Hk. now apply get_filter_kept.
  - intros k1 k2 t1 t2 G1 G2 H1 H2. rewrite Hstore in H1, H2.
    rewrite has_filter_kept in H1, H2.
    apply andb_true_iff in H2. destruct H2 as [K2 _].
    assert (K1 : In k1 (evictedKeys w)).
    { apply keptKey_false_in. destruct (keptKey (evictedKeys w) k1); [|reflexivity].
      simpl in H1. apply get_In in G1.
      assert (In k1 (JsMap.keys (smartTileCache w))).
      { rewrite Hm. change k1 with (fst (k1, t1)). now apply in_map. }
      apply has_iff_in in H. congruence. }
    unfold evictedKeys, slice0 in K1, K2.
    set (n := JsMap.size (smartTileCache w) - maxCacheSize + 10) in *.
    destruct (Z.ltb_spec n 0) as [Hneg|_]; [unfold maxCacheSize in *; lia|].
    set (sorted := sortByTime (cacheAccessOrder w)) in *.
    pose proof (sortByTime_perm (cacheAccessOrder w)) as Hp. fold sorted in Hp.
    assert (Hnds : NoDup (JsMap.keys sorted)).
    { eapply Permutation_NoDup; [symmetry; apply Permutation_map; exact Hp|].
      change (NoDup (JsMap.keys (cacheAccessOrder w))). now rewrite <- Hm. }
    pose proof (sortByTime_StronglySorted (cacheAccessOrder w)) as Hs. fold sorted in Hs.
    rewrite <- (firstn_skipn (Z.to_nat n) sorted) in Hs.
    apply get_In in G1, G2.
    assert (S1 : In (k1, t1) sorted) by (eapply Permutation_in; [symmetry|]; eauto).
    assert (S2 : In (k2, t2) sorted) by (eapply Permutation_in; [symmetry|]; eauto).
    assert (F1 : In (k1, t1) (firstn (Z.to_nat n) sorted)).
    { apply In_keys_entry in K1. destruct K1 as [t K1].
      pose proof (firstn_incl _ _ _ K1) as K1'.
      apply (In_get _ _ _ Hnds) in K1'. apply (In_get _ _ _ Hnds) in S1.
      assert (t = t1) by congruence. now subst. }
    assert (F2 : In (k2, t2) (skipn (Z.to_nat n) sorted)).
    { rewrite <- (firstn_skipn (Z.to_nat n) sorted) in S2.
      apply in_app_or in S2. destruct S2 as [S2|S2]; [|exact S2].
      exfalso. assert (In k2 (map fst (firstn (Z.to_nat n) sorted)))
        by (change k2 with (fst (k2, t2)); now apply in_map).
      rewrite (keptKey_false _ _ H) in K2. discriminate. }
    exact (StronglySorted_app_le byTime _ _ _ _ Hs F1 F2).
Qed.

(** ** A put followed by a get *)

Lemma insertByTime_last x e l :
  snd x <= snd e -> insertByTime x (l ++ [e]) = insertByTime x l ++ [e].
Proof.
  intros Hle. induction l as [|e' l IH]; simpl.
  - destruct (Z.leb_spec (snd x - snd e) 0); [reflexivity|lia].
  - destruct (snd x - snd e' <=? 0); [reflexivity|]. now rewrite IH.
Qed.

Lemma sortByTime_last e l :
  Forall (fun x => snd x <= snd e) l -> sortByTime (l ++ [e]) = sortByTime l ++ [e].
Proof.
  induction 1 as [|x l Hx _ IH]; simpl; [reflexivity|].
  rewrite IH. now apply insertByTime_last.
Qed.

Lemma sortByTime_first e l :
  Forall (fun x => snd e < snd x) l -> sortByTime (l ++ [e]) = e :: sortByTime l.
Proof.
  induction 1 as [|x l Hx _ IH]; simpl; [reflexivity|].
  rewrite IH. simpl. destruct (Z.leb_spec (snd x - snd e) 0); [lia|reflexivity].
Qed.

Lemma get_app_fresh {V : Type} k (v : V) (m : list (string * V)) :
  ~ In k (JsMap.keys m) -> JsMap.get k (m ++ [(k, v)]) = Some v.
Proof.
  induction m as [|[k' v'] m IH]; simpl; intros H.
  - now rewrite String.eqb_refl.
  - destruct (String.eqb_spec k' k) as [->|Hne]; [elim H; now left|].
    apply IH. tauto.
Qed.

Lemma get_has {V : Type} k (v : V) (m : list (string * V)) :
  JsMap.get k m = Some v -> JsMap.has k m = true.
Proof. unfold JsMap.has. now intros ->. Qed.

Lemma storeInSmartCache_present k v now w :
  smartTileCacheEnabled w = true -> lruOk w ->
  JsMap.has k (smartTileCache w) = true ->
  smartTileCache (storeInSmartCache k v now w) = JsMap.set k v (smartTileCache w).
Proof.
  intros Hen [Hk Hnd Hsz] Hhas.
  destruct (storeInSmartCache_unfold k v now w Hen) as (E1 & _ & _).
  rewrite E1. rewrite evictLRUEntries_closed.
  pose proof (length_set_present k v _ Hhas) as Hlen.
  destruct w; unfold JsMap.size in *; simpl in *. rewrite Hlen.
  destruct (Z.leb_spec (Z.of_nat (List.length smartTileCache0)) maxCacheSize);
    [reflexivity|lia].
Qed.

(** After a put at a time that no ledger entry exceeds, the key is in the
    cache with the value put. *)
Lemma storeInSmartCache_get k v now w :
  smartTileCacheEnabled w = true -> lruOk w ->
  Forall (fun e => snd e <= now) (cacheAccessOrder w) ->
  JsMap.get k (smartTileCache (storeInSmartCache k v now w)) = Some v
  /\ smartTileCacheEnabled (storeInSmartCache k v now w) = true.
Proof.
  intros Hen Hok Hclock.
  split; [|now destruct (storeInSmartCache_unfold k v now w Hen) as (_ & _ & ?)].
  destruct (JsMap.has k (smartTileCache w)) eqn:Hhas.
  - rewrite storeInSmartCache_present by assumption. apply get_set_same.
  - pose proof (has_false_not_in _ _ Hhas) as Hfresh.
    destruct Hok as [Hk Hnd Hsz].
    destruct (Z.eq_dec (JsMap.size (smartTileCache w)) maxCacheSize) as [Hfull|Hroom].
    + destruct (storeInSmartCache_overflow k v now w Hen Hk Hfresh Hfull) as (E & _ & _).
      rewrite E, removeKeys_filter.
      rewrite sortByTime_last by exact Hclock.
      assert (Hlen : List.length (sortByTime (cacheAccessOrder w)) = 500%nat).
      { rewrite (Permutation_length (sortByTime_perm _)).
        rewrite <- length_keys, <- Hk, length_keys.
        unfold JsMap.size, maxCacheSize in Hfull. lia. }
      rewrite firstn_app, Hlen. simpl firstn at 2. rewrite app_nil_r.
      rewrite get_filter_kept; [now apply get_app_fresh|].
      apply keptKey_true. intros Hin. apply Hfresh. rewrite Hk.
      rewrite <- firstn_map in Hin. apply firstn_incl in Hin.
      eapply Permutation_in; [|exact Hin].
      apply Permutation_map, sortByTime_perm.
    + destruct (storeInSmartCache_fresh k v now w Hen Hk Hfresh) as (E & _ & _); [lia|].
      rewrite E. now apply get_app_fresh.
Qed.

Lemma getFromSmartCache_hit k v now w :
  smartTileCacheEnabled w = true ->
  JsMap.get k (smartTileCache w) = Some v ->
  getFromSmartCache k now w
  = (v, set_cacheHits (cacheHits w + 1) (updateCacheAccess k now w)).
Proof.
  intros Hen Hget. unfold getFromSmartCache. rewrite Hen, (get_has _ _ _ Hget). simpl.
  unfold getTile, updateCacheAccess. destruct w; simpl in *. now rewrite Hget.
Qed.

(** X4: in every state a run of the module reaches with the cache on, a
    put at a time that no ledger entry exceeds, followed by a get of the
    same key, returns the tile that was put and counts exactly one hit and
    no miss; neither call changes the counters otherwise. *)
Theorem put_then_get_returns_tile g l evs (k : string) (v : Tile) (now now' : Z) :
  let w := run (moduleLoaded g l) evs in
  smartTileCacheEnabled w = true ->
  Forall (fun e => snd e <= now) (cacheAccessOrder w) ->
  let w1 := storeInSmartCache k v now w in
  let r := getFromSmartCache k now' w1 in
  fst r = v
  /\ cacheHits (snd r) = cacheHits w + 1
  /\ cacheMisses (snd r) = cacheMisses w
  /\ smartTileCache (snd r) = smartTileCache w1
  /\ JsMap.get k (cacheAccessOrder (snd r)) = Some now'.
Proof.
  intros w Hen Hclock w1 r.
  pose proof (run_lruOk evs _ (lruOk_moduleLoaded g l)) as Hok. fold w in Hok.
  destruct (storeInSmartCache_get k v now w Hen Hok Hclock) as [Hget Hen1].
  fold w1 in Hget, Hen1.
  destruct (storeInSmartCache_switches k v now w) as (_ & _ & Hh & Hm).
  fold w1 in Hh, Hm.
  unfold r. rewrite (getFromSmartCache_hit k v now' w1 Hen1 Hget). simpl.
  destruct w1; simpl in *. subst. repeat split; auto.
  apply get_set_same.
Qed.

(** X5: a put of a new key into a full cache at a time earlier than every
    ledger entry (a clock set back) is undone by its own eviction: the key
    is absent right after the put, and a get of it is a miss. *)
Theorem stale_put_is_evicted_at_once g l evs (k : string) (v : Tile) (now now' : Z) :
  let w := run (moduleLoaded g l) evs in
  smartTileCacheEnabled w = true ->
  JsMap.size (smartTileCache w) = maxCacheSize ->
  JsMap.has k (smartTileCache w) = false ->
  Forall (fun e => now < snd e) (cacheAccessOrder w) ->
  let w1 := storeInSmartCache k v now w in
  JsMap.has k (smartTileCache w1) = false
  /\ fst (getFromSmartCache k now' w1) = None
  /\ cacheMisses (snd (getFromSmartCache k now' w1)) = cacheMisses w + 1.
Proof.
  intros w Hen Hfull Hhas Hclock w1.
  pose proof (run_lruOk evs _ (lruOk_moduleLoaded g l)) as [Hk Hnd Hsz]. fold w in Hk, Hnd, Hsz.
  pose proof (has_false_not_in _ _ Hhas) as Hfresh.
  destruct (storeInSmartCache_overflow k v now w Hen Hk Hfresh Hfull) as (E & _ & Hen1).
  fold w1 in E, Hen1.
  assert (Habs : JsMap.has k (smartTileCache w1) = false).
  { rewrite E, removeKeys_filter, has_filter_kept.
    rewrite sortByTime_first by exact Hclock. simpl.
    rewrite keptKey_false; [reflexivity|now left]. }
  destruct (storeInSmartCache_switches k v now w) as (_ & _ & _ & Hm). fold w1 in Hm.
  split; [exact Habs|].
  unfold getFromSmartCache. rewrite Hen1, Habs. simpl.
  split; [reflexivity|]. destruct w1; simpl in *. now rewrite Hm.
Qed.

(** ** Settings *)

(** X6: what a save function stores is what the matching get function
    reads back, whichever storage back ends exist; saving one setting does
    not change the other; with nothing stored the pause is off and the cache
    is on; a value in the userscript storage takes precedence over the one in
    [localStorage]. *)
Theorem settings_round_trip (b : bool) (w : World) :
  getTileRefreshPaused (saveTileRefreshPaused b w) = b
  /\ getSmartTileCacheEnabled (saveSmartTileCacheEnabled b w) = b
  /\ getSmartTileCacheEnabled (saveTileRefreshPaused b w) = getSmartTileCacheEnabled w
  /\ getTileRefreshPaused (saveSmartTileCacheEnabled b w) = getTileRefreshPaused w
  /\ (forall gmExists : bool,
        let w0 := moduleLoaded (if gmExists then Some (mkGM None None) else None)
                    emptyLocalStorage in
        getTileRefreshPaused w0 = false /\ getSmartTileCacheEnabled w0 = true)
  /\ (forall p c l,
        let w0 := moduleLoaded (Some (mkGM (Some p) (Some c))) l in
        getTileRefreshPaused w0 = p /\ getSmartTileCacheEnabled w0 = c).
Proof.
  unfold getTileRefreshPaused, getSmartTileCacheEnabled, saveTileRefreshPaused,
    saveSmartTileCacheEnabled.
  repeat split; try (destruct w as [? ? ? ? ? ? ? ? ? ? ? [[? ?]|] [? ? ? ?] ?];
                     reflexivity).
  all: destruct gmExists; reflexivity.
Qed.

(** ** Initialisation *)

Lemma initializeSmartTileCache_fields w :
  let w' := initializeSmartTileCache w in
  tileRefreshPaused w' = tileRefreshPaused w
  /\ originalDrawTemplateOnTile w' = originalDrawTemplateOnTile w
  /\ isCapturingState w' = isCapturingState w
  /\ drawTemplateOnTile w' = drawTemplateOnTile w
  /\ frozenTileCache w' = frozenTileCache w
  /\ inflight w' = inflight w
  /\ gmStorage w' = gmStorage w
  /\ ls_bmTileRefreshPaused (localStorage w') = ls_bmTileRefreshPaused (localStorage w)
  /\ ls_bmSmartTileCache (localStorage w') = ls_bmSmartTileCache (localStorage w).
Proof.
  unfold initializeSmartTileCache, clearSmartTileCache, saveCacheStatistics.
  destruct w as [? ? ? ? ? ? ? ? ? ? ? ? [? ? ? [v|]] ?]; simpl;
    [destruct (String.eqb v cacheVersion)|]; simpl; repeat split; reflexivity.
Qed.

(** X7: initialising reads the stored version: when it is the current one
    the cache is kept and the counters are loaded from the stored statistics
    (zero when there are none); otherwise the cache and the ledger are
    emptied, the counters and the stored statistics are zeroed.  Either way
    the current version is stored afterwards and the frozen cache is left
    alone. *)
Theorem initialize_checks_version (w : World) :
  let w' := initializeSmartTileCache w in
  ls_bmSmartTileCacheVersion (localStorage w') = Some cacheVersion
  /\ frozenTileCache w' = frozenTileCache w
  /\ smartTileCacheEnabled w' = getSmartTileCacheEnabled w
  /\ (ls_bmSmartTileCacheVersion (localStorage w) = Some cacheVersion ->
      smartTileCache w' = smartTileCache w
      /\ cacheAccessOrder w' = cacheAccessOrder w
      /\ (cacheHits w', cacheMisses w')
         = match ls_bmSmartTileCacheStats (localStorage w) with
           | Some s => s
           | None => (0, 0)
           end
      /\ localStorage w' = localStorage w)
  /\ (ls_bmSmartTileCacheVersion (localStorage w) <> Some cacheVersion ->
      smartTileCache w' = [] /\ cacheAccessOrder w' = []
      /\ cacheHits w' = 0 /\ cacheMisses w' = 0
      /\ ls_bmSmartTileCacheStats (localStorage w') = Some (0, 0)).
Proof.
  unfold initializeSmartTileCache, clearSmartTileCache, saveCacheStatistics.
  destruct w as [? ? ? ? ? ? ? ? ? ? ? ? [lp lc st [v|]] ?]; simpl.
  - destruct (String.eqb_spec v cacheVersion) as [->|Hne]; simpl.
    + split; [reflexivity|]. split; [reflexivity|]. split; [reflexivity|]. split.
      * intros _. destruct st as [[h m]|]; repeat split; reflexivity.
      * intros H. now elim H.
    + split; [reflexivity|]. split; [reflexivity|]. split; [reflexivity|]. split.
      * intros H. injection H as H. contradiction.
      * intros _. repeat split; reflexivity.
  - split; [reflexivity|]. split; [reflexivity|]. split; [reflexivity|]. split.
    + discriminate.
    + intros _. repeat split; reflexivity.
Qed.

Lemma initializeSmartTileCache_settled w :
  let w' := initializeSmartTileCache w in
  ls_bmSmartTileCacheVersion (localStorage w') = Some cacheVersion
  /\ smartTileCacheEnabled w' = getSmartTileCacheEnabled w
  /\ (cacheHits w', cacheMisses w')
     = match ls_bmSmartTileCacheStats (localStorage w') with
       | Some s => s
       | None => (0, 0)
       end.
Proof.
  unfold initializeSmartTileCache, clearSmartTileCache, saveCacheStatistics.
  destruct w as [? ? ? ? ? ? ? ? ? ? ? ? [lp lc st [v|]] ?]; simpl.
  - destruct (String.eqb_spec v cacheVersion) as [->|Hne]; simpl.
    + repeat split. destruct st as [[h m]|]; reflexivity.
    + repeat split.
  - repeat split.
Qed.

Lemma set_same_fields w :
  set_smartTileCacheEnabled (smartTileCacheEnabled w) w = w
  /\ set_cacheMisses (cacheMisses w) (set_cacheHits (cacheHits w) w) = w
  /\ set_tileRefreshPaused (tileRefreshPaused w) w = w
  /\ set_drawTemplateOnTile (drawTemplateOnTile w) w = w.
Proof. destruct w; repeat split. Qed.

(** A world that initialisation has settled is left as it is by another
    initialisation. *)
Lemma initialize_fixpoint w :
  ls_bmSmartTileCacheVersion (localStorage w) = Some cacheVersion ->
  originalDrawTemplateOnTile w <> None ->
  getSmartTileCacheEnabled w = smartTileCacheEnabled w ->
  getTileRefreshPaused w = tileRefreshPaused w ->
  (cacheHits w, cacheMisses w)
  = match ls_bmSmartTileCacheStats (localStorage w) with
    | Some s => s
    | None => (0, 0)
    end ->
  drawTemplateOnTile w = (if tileRefreshPaused w then PausedDraw else ResumedWrapper) ->
  initializeTileRefreshPause w = w.
Proof.
  intros Hv Ho He Hp Hs Hd.
  destruct (set_same_fields w) as (S1 & S2 & S3 & S4).
  assert (E1 : initializeSmartTileCache w = w).
  { unfold initializeSmartTileCache. rewrite He, S1, Hv.
    change (String.eqb cacheVersion cacheVersion) with true. cbv iota.
    rewrite <- Hs. exact S2. }
  unfold initializeTileRefreshPause. rewrite E1. cbv zeta. rewrite Hp, S3.
  destruct (originalDrawTemplateOnTile w) as [fn|] eqn:Eo; [|now elim Ho].
  unfold applyTileRefreshPause. rewrite Eo.
  destruct (tileRefreshPaused w); rewrite <- Hd; exact S4.
Qed.

Lemma applyTileRefreshPause_fields w :
  let w' := applyTileRefreshPause w in
  set_drawTemplateOnTile (drawTemplateOnTile w) w' = w
  /\ (originalDrawTemplateOnTile w <> None ->
      drawTemplateOnTile w'
      = if tileRefreshPaused w then PausedDraw else ResumedWrapper).
Proof.
  unfold applyTileRefreshPause.
  destruct w as [[|] [fn|] ? ? ? ? ? ? ? ? ? ? ? ?]; simpl; split;
    try reflexivity; intros H; now elim H.
Qed.

(** X8: initialising twice is the same as initialising once: the captured
    function is not captured again, the wrapper is not wrapped, and the
    flags, the caches, the counters and the storage come out the same. *)
Theorem initialize_is_idempotent (w : World) :
  initializeTileRefreshPause (initializeTileRefreshPause w)
  = initializeTileRefreshPause w.
Proof.
  apply initialize_fixpoint.
  all: unfold initializeTileRefreshPause.
  all: destruct (initializeSmartTileCache_settled w) as (Hv & He & Hs).
  all: destruct (initializeSmartTileCache_fields w)
         as (Fp & Fo & Fc & Fd & Ff & Fi & Fg & Flp & Flc).
  all: set (w1 := initializeSmartTileCache w) in *; clearbody w1.
  all: assert (Hen : getSmartTileCacheEnabled w1 = smartTileCacheEnabled w1)
         by (rewrite He; unfold getSmartTileCacheEnabled; now rewrite Fg, Flc).
  all: clear He Fp Fo Fc Fd Ff Fi Fg Flp Flc w.
  all: unfold applyTileRefreshPause, getTileRefreshPaused, getSmartTileCacheEnabled in *.
  all: destruct w1 as [p o f c e s a h m t d [[[[|]|] gc]|] [[[|]|] lc st v] i];
         simpl in *.
  all: destruct o; simpl; auto; discriminate.
Qed.

(** ** The installed function *)

(** How an event changes the pause flag, the captured function, the
    capturing flag and the slot. *)
Lemma step_control w ev :
  let w' := step w ev in
  isCapturingState w' = isCapturingState w
  /\ match ev with
     | EvInitialize =>
         tileRefreshPaused w' = getTileRefreshPaused w
         /\ originalDrawTemplateOnTile w'
            = match originalDrawTemplateOnTile w with
              | None => Some (drawTemplateOnTile w)
              | Some fn => Some fn
              end
         /\ drawTemplateOnTile w'
            = if getTileRefreshPaused w then PausedDraw else ResumedWrapper
     | EvTogglePause =>
         tileRefreshPaused w' = negb (tileRefreshPaused w)
         /\ originalDrawTemplateOnTile w' = originalDrawTemplateOnTile w
         /\ drawTemplateOnTile w'
            = if negb (tileRefreshPaused w) then PausedDraw
              else match originalDrawTemplateOnTile w with
                   | Some _ => ResumedWrapper
                   | None => drawTemplateOnTile w
                   end
     | _ =>
         tileRefreshPaused w' = tileRefreshPaused w
         /\ originalDrawTemplateOnTile w' = originalDrawTemplateOnTile w
         /\ drawTemplateOnTile w' = drawTemplateOnTile w
     end.
Proof.
  destruct ev; simpl.
  - unfold initializeTileRefreshPause.
    destruct (initializeSmartTileCache_fields w)
      as (Fp & Fo & Fc & Fd & Ff & Fi & Fg & Flp & Flc).
    assert (Hg : getTileRefreshPaused (initializeSmartTileCache w) = getTileRefreshPaused w)
      by (unfold getTileRefreshPaused; now rewrite Fg, Flp).
    set (w1 := initializeSmartTileCache w) in *. clearbody w1.
    rewrite <- Hg, <- Fo, <- Fd, <- Fc. clear.
    unfold applyTileRefreshPause.
    destruct (getTileRefreshPaused w1) eqn:Ep;
      destruct w1 as [? [fn|] ? ? ? ? ? ? ? ? ? ? ? ?]; simpl in *;
      repeat split; reflexivity.
  - unfold toggleTileRefreshPause, applyTileRefreshPause, saveTileRefreshPaused.
    destruct w as [[|] [fn|] ? ? ? ? ? ? ? ? ? [?|] ? ?]; simpl; repeat split.
  - unfold toggleSmartTileCache, saveSmartTileCacheEnabled, clearSmartTileCache,
      saveCacheStatistics.
    destruct w as [? ? ? ? [|] ? ? ? ? ? ? [?|] ? ?]; simpl; repeat split.
  - unfold invalidateCacheForSettingsChange.
    destruct (_ && _); [|repeat split].
    destruct (clearSmartTileCache_switches w) as (Hs & _).
    unfold switches in Hs. injection Hs as E1 E2 E3 E4 E5 E6 E7 E8. auto.
  - destruct w; repeat split.
  - destruct w; repeat split.
  - destruct (callDraw_switches (drawTemplateOnTile w) tileBlob tileCoords
                templatesArray now w) as (Hs & _).
    unfold switches in Hs. injection Hs as E1 E2 E3 E4 E5 E6 E7 E8.
    destruct (callDraw _ _ _ _ _ _) as [r w'|p w'|w']; simpl in *; auto.
    destruct w'; simpl in *; auto.
  - destruct (nth_error (inflight w) i) as [p|]; [|repeat split].
    pose proof (wrapperEnd_switches p
                  (match p_settled p with Some o' => o' | None => o end) now
                  (set_inflight (removeNth i (inflight w)) w)) as Hs.
    unfold switches in Hs. injection Hs as E1 E2 E3 E4 E5 E6 E7 E8.
    rewrite E1, E2, E3, E5. destruct w; repeat split.
Qed.

Lemma liveOk_moduleLoaded g l : liveOk (moduleLoaded g l).
Proof. constructor; simpl; [intros H; now elim H | reflexivity]. Qed.

Lemma step_liveOk w ev : liveOk w -> liveOk (step w ev).
Proof.
  intros [Hslot Hcap]. destruct (step_control w ev) as (Ec & H).
  constructor; [|now rewrite Ec].
  destruct ev; destruct H as (Ep & Eo & Ed); rewrite Ep, Eo, Ed; try exact Hslot.
  - intros _. reflexivity.
  - intros Ho. destruct (originalDrawTemplateOnTile w); [|now elim Ho].
    now destruct (tileRefreshPaused w).
Qed.

Lemma run_liveOk evs w : liveOk w -> liveOk (run w evs).
Proof.
  revert w. induction evs as [|ev evs IH]; intros w H; [exact H|].
  simpl. apply IH. now apply step_liveOk.
Qed.

(** X9: the compositing function is captured once: after any step the
    captured function is the one captured before, and in every state a run
    of the module reaches it is the host's method or the paused version,
    never one of the module's own wrappers; the capturing flag is never
    raised. *)
Theorem captured_function_is_stable :
  (forall w ev fn,
      originalDrawTemplateOnTile w = Some fn ->
      originalDrawTemplateOnTile (step w ev) = Some fn)
  /\ (forall g l evs fn,
        originalDrawTemplateOnTile (run (moduleLoaded g l) evs) = Some fn ->
        fn = HostDraw \/ fn = PausedDraw)
  /\ (forall g l evs, isCapturingState (run (moduleLoaded g l) evs) = false).
Proof.
  split; [|split].
  - intros w ev fn Ho. destruct (step_control w ev) as (_ & H).
    destruct ev; destruct H as (_ & Eo & _); rewrite Eo, Ho; reflexivity.
  - intros g l evs fn.
    apply (sw_captured _ (run_switchOk evs _ (switchOk_moduleLoaded g l))).
  - intros g l evs.
    apply (live_capturing _ (run_liveOk evs _ (liveOk_moduleLoaded g l))).
Qed.

Lemma step_hostUnreachable w ev : hostUnreachable w -> hostUnreachable (step w ev).
Proof.
  intros [Hslot Hcap Hbef]. destruct (step_control w ev) as (_ & H).
  destruct ev; destruct H as (Ep & Eo & Ed); constructor; rewrite ?Eo, ?Ed;
    try assumption.
  - now destruct (getTileRefreshPaused w).
  - destruct (originalDrawTemplateOnTile w) as [fn0|] eqn:E.
    + exact Hcap.
    + intros fn F. injection F as <-. now apply Hbef.
  - destruct (originalDrawTemplateOnTile w); discriminate.
  - destruct (negb (tileRefreshPaused w)); [discriminate|].
    destruct (originalDrawTemplateOnTile w); [discriminate|exact Hslot].
  - intros Ho. destruct (negb (tileRefreshPaused w)); [reflexivity|].
    rewrite Ho. now apply Hbef.
Qed.

Lemma run_hostUnreachable evs w : hostUnreachable w -> hostUnreachable (run w evs).
Proof.
  revert w. induction evs as [|ev evs IH]; intros w H; [exact H|].
  simpl. apply IH. now apply step_hostUnreachable.
Qed.

Lemma wrapperBegin_calls probe b c ts now w :
  match wrapperBegin probe b c ts now w with
  | Returned _ _ => True
  | Awaiting p w' =>
      p_settled p = callOriginal b c w'
      /\ p_cacheKey p = generateCacheKey c ts b /\ p_tileCoords p = c
      /\ originalDrawTemplateOnTile w' = originalDrawTemplateOnTile w
  | HostRuns _ => False
  end.
Proof.
  unfold wrapperBegin. destruct probe; [|simpl; auto].
  pose proof (getFromSmartCache_switches (generateCacheKey c ts b) now w) as (Hs & _).
  destruct (getFromSmartCache _ now w) as [r w']. simpl in Hs.
  unfold switches in Hs. injection Hs as _ E2 _ _ _ _ _ _.
  destruct (truthy r); simpl; auto.
Qed.

(** X10: when the pause is toggled before the first initialisation, the
    function that initialisation captures is the paused version, not the
    host's method: from then on no draw request ever reaches the host's
    compositing; a wrapper that "calls the original" gets the frozen tile or
    its own input back. *)
Theorem pause_before_initialize_hides_host g l evs
    (tileBlob : Tile) (tileCoords : Coords)
    (templatesArray : option (list Template)) (now : Z) :
  let w := run (moduleLoaded g l) (EvTogglePause :: evs) in
  (forall fn, originalDrawTemplateOnTile w = Some fn -> fn = PausedDraw)
  /\ match callDraw (drawTemplateOnTile w) tileBlob tileCoords templatesArray now w with
     | Returned _ _ => True
     | Awaiting p w' =>
         p_settled p = Some (Resolved (pausedDraw tileBlob tileCoords w'))
     | HostRuns _ => False
     end.
Proof.
  intros w.
  assert (H0 : hostUnreachable (step (moduleLoaded g l) EvTogglePause)).
  { constructor; simpl; unfold saveTileRefreshPaused; destruct g; simpl;
      try discriminate; reflexivity. }
  pose proof (run_hostUnreachable evs _ H0) as [Hslot Hcap Hbef].
  change (run (step (moduleLoaded g l) EvTogglePause) evs) with w in *.
  split; [exact Hcap|].
  assert (Hw : forall probe,
             originalDrawTemplateOnTile w <> None ->
             match wrapperBegin probe tileBlob tileCoords templatesArray now w with
             | Returned _ _ => True
             | Awaiting p w' =>
                 p_settled p = Some (Resolved (pausedDraw tileBlob tileCoords w'))
             | HostRuns _ => False
             end).
  { intros probe Hset.
    pose proof (wrapperBegin_calls probe tileBlob tileCoords templatesArray now w) as H.
    destruct (wrapperBegin _ _ _ _ _ _) as [r w'|p w'|w']; auto.
    destruct H as (Hp & _ & _ & Ho). rewrite Hp. unfold callOriginal. rewrite Ho.
    destruct (originalDrawTemplateOnTile w) as [fn|] eqn:E; [|now elim Hset].
    now rewrite (Hcap fn eq_refl). }
  destruct (drawTemplateOnTile w) eqn:Ed; simpl; auto.
  - apply Hw. intros Ho. apply Hbef in Ho. congruence.
  - apply Hw. intros Ho. apply Hbef in Ho. congruence.
Qed.

(** ** Frozen snapshots *)

Lemma storeFrozen_get c r w :
  frozenOk w ->
  JsMap.get (coordsKey c) (frozenTileCache (storeFrozen c r w)) = Some r.
Proof.
  intros Hok. rewrite (storeFrozen_cases c r w Hok). destruct Hok as [Hnd _].
  destruct (JsMap.has (coordsKey c) (frozenTileCache w)) eqn:Eh.
  - apply get_set_same.
  - pose proof (has_false_not_in _ _ Eh) as Hfresh.
    destruct (_ =? 100); apply get_app_fresh; [|exact Hfresh].
    destruct (frozenTileCache w) as [|e f]; [exact Hfresh|].
    simpl in *. tauto.
Qed.

Lemma toggleTileRefreshPause_fields w :
  let w' := snd (toggleTileRefreshPause w) in
  fst (toggleTileRefreshPause w) = negb (tileRefreshPaused w)
  /\ tileRefreshPaused w' = negb (tileRefreshPaused w)
  /\ frozenTileCache w' = frozenTileCache w
  /\ smartTileCache w' = smartTileCache w
  /\ cacheAccessOrder w' = cacheAccessOrder w
  /\ smartTileCacheEnabled w' = smartTileCacheEnabled w
  /\ (cacheHits w', cacheMisses w') = (cacheHits w, cacheMisses w)
  /\ drawTemplateOnTile w'
     = if negb (tileRefreshPaused w) then PausedDraw
       else match originalDrawTemplateOnTile w with
            | Some _ => ResumedWrapper
            | None => drawTemplateOnTile w
            end.
Proof.
  unfold toggleTileRefreshPause, applyTileRefreshPause, saveTileRefreshPaused.
  destruct w as [[|] [fn|] ? ? ? ? ? ? ? ? ? [?|] ? ?]; simpl; repeat split.
Qed.

Lemma wrapperEnd_stores p r now w :
  tileRefreshPaused w = false -> isCapturingState w = false ->
  smartTileCacheEnabled w = true ->
  wrapperEnd p (Resolved r) now w
  = (Resolved r,
     storeFrozen (p_tileCoords p) r (storeInSmartCache (p_cacheKey p) r now w)).
Proof. intros Hp Hc He. unfold wrapperEnd. now rewrite Hp, Hc, He. Qed.

(** X11: in every state a run of the module reaches, running with the
    cache on, a composite that has just resolved is the frozen snapshot of
    its tile; when the pause is toggled right after, a draw of that tile
    returns this composite. *)
Theorem frozen_snapshot_round_trip g l evs (p : Pending) (r : Tile) (now now' : Z)
    (tileBlob : Tile) (templatesArray : option (list Template)) :
  let w := run (moduleLoaded g l) evs in
  tileRefreshPaused w = false ->
  smartTileCacheEnabled w = true ->
  let w1 := snd (wrapperEnd p (Resolved r) now w) in
  let w2 := snd (toggleTileRefreshPause w1) in
  fst (wrapperEnd p (Resolved r) now w) = Resolved r
  /\ JsMap.get (coordsKey (p_tileCoords p)) (frozenTileCache w1) = Some r
  /\ tileRefreshPaused w2 = true
  /\ callDraw (drawTemplateOnTile w2) tileBlob (p_tileCoords p) templatesArray now' w2
     = Returned r w2.
Proof.
  intros w Hp He w1 w2.
  pose proof (live_capturing _ (run_liveOk evs _ (liveOk_moduleLoaded g l))) as Hc.
  pose proof (run_frozenOk evs _ (frozenOk_moduleLoaded g l)) as Hf.
  fold w in Hc, Hf.
  pose proof (wrapperEnd_stores p r now w Hp Hc He) as E.
  assert (Hget : JsMap.get (coordsKey (p_tileCoords p)) (frozenTileCache w1) = Some r).
  { unfold w1. rewrite E. simpl. apply storeFrozen_get.
    eapply frozenOk_same; [|exact Hf]. apply storeInSmartCache_switches. }
  assert (Hp1 : tileRefreshPaused w1 = false).
  { pose proof (wrapperEnd_switches p (Resolved r) now w) as Hs. fold w1 in Hs.
    unfold switches in Hs. injection Hs as E1 _ _ _ _ _ _ _. now rewrite E1. }
  destruct (toggleTileRefreshPause_fields w1) as (_ & T1 & T2 & _ & _ & _ & _ & T3).
  fold w2 in T1, T2, T3. rewrite Hp1 in T1, T3. simpl in T1, T3.
  split; [now rewrite E|]. split; [exact Hget|]. split; [exact T1|].
  rewrite T3. simpl. now rewrite pausedDraw_lookup, T2, Hget.
Qed.

(** X12: while the pause flag is set, in every state a run of the module
    reaches, neither a draw request nor a compositing call that settles late
    changes the smart cache, its ledger, the frozen cache, the counters or
    the storage. *)
Theorem pause_freezes_all_caches g l evs (ev : Event) :
  let w := run (moduleLoaded g l) evs in
  tileRefreshPaused w = true ->
  match ev with
  | EvDraw _ _ _ _ | EvSettle _ _ _ =>
      smartTileCache (step w ev) = smartTileCache w
      /\ cacheAccessOrder (step w ev) = cacheAccessOrder w
      /\ frozenTileCache (step w ev) = frozenTileCache w
      /\ cacheHits (step w ev) = cacheHits w
      /\ cacheMisses (step w ev) = cacheMisses w
      /\ localStorage (step w ev) = localStorage w
  | _ => True
  end.
Proof.
  intros w Hp.
  pose proof (sw_paused _ (run_switchOk evs _ (switchOk_moduleLoaded g l))) as Hslot.
  fold w in Hslot. specialize (Hslot Hp).
  destruct ev; auto; simpl.
  - rewrite Hslot. simpl. repeat split.
  - destruct (nth_error (inflight w) i) as [p|]; [|repeat split].
    unfold wrapperEnd.
    destruct (match p_settled p with Some o' => o' | None => o end);
      destruct w; simpl in *; subst; simpl; repeat split.
Qed.

(** X13: while the smart cache is switched off, a draw request always goes
    to the captured function without a cache lookup, and neither it nor the
    settling of a compositing call changes the smart cache, its ledger, the
    frozen cache, the counters or the storage: no frozen snapshot is taken
    while the cache is off. *)
Theorem disabled_cache_takes_no_snapshot (w : World) (ev : Event) :
  smartTileCacheEnabled w = false ->
  match ev with
  | EvDraw tileBlob tileCoords templatesArray now =>
      match callDraw (drawTemplateOnTile w) tileBlob tileCoords templatesArray now w with
      | Returned _ w' => drawTemplateOnTile w = PausedDraw /\ w' = w
      | Awaiting _ w' | HostRuns w' => w' = w
      end
  | _ => True
  end
  /\ match ev with
     | EvDraw _ _ _ _ | EvSettle _ _ _ =>
         smartTileCache (step w ev) = smartTileCache w
         /\ cacheAccessOrder (step w ev) = cacheAccessOrder w
         /\ frozenTileCache (step w ev) = frozenTileCache w
         /\ cacheHits (step w ev) = cacheHits w
         /\ cacheMisses (step w ev) = cacheMisses w
         /\ localStorage (step w ev) = localStorage w
     | _ => True
     end.
Proof.
  intros He. destruct ev; auto; simpl.
  - unfold callDraw, wrapperBegin. rewrite He, andb_false_r.
    destruct (drawTemplateOnTile w); simpl; repeat split; destruct w; reflexivity.
  - split; [exact I|].
    destruct (nth_error (inflight w) i) as [p|]; [|repeat split].
    unfold wrapperEnd.
    destruct (match p_settled p with Some o' => o' | None => o end);
      destruct w; simpl in *; subst; rewrite ?andb_false_r; simpl; repeat split.
Qed.

(** X14: in every state a run of the module reaches with the pause flag
    set, once the frozen cache has been cleared it counts no tile and a draw
    of any tile returns the input blob unchanged. *)
Theorem cleared_frozen_cache_returns_input g l evs
    (tileBlob : Tile) (tileCoords : Coords)
    (templatesArray : option (list Template)) (now : Z) :
  let w := run (moduleLoaded g l) evs in
  tileRefreshPaused w = true ->
  let w' := clearFrozenTileCache w in
  getCachedTileCount w' = 0
  /\ callDraw (drawTemplateOnTile w') tileBlob tileCoords templatesArray now w'
     = Returned tileBlob w'.
Proof.
  intros w Hp w'.
  pose proof (sw_paused _ (run_switchOk evs _ (switchOk_moduleLoaded g l))) as Hslot.
  fold w in Hslot. specialize (Hslot Hp).
  unfold w', clearFrozenTileCache, getCachedTileCount.
  destruct w; simpl in *. now subst.
Qed.

(** ** The running path *)

(** X15: in every state a run of the module reaches after initialisation,
    toggling the pause off reinstalls the caching wrapper and leaves both
    caches and the counters as they are; and whenever the module is running,
    a draw whose key is not in the smart cache (or with the cache off) calls
    the captured compositing function, counting one miss when the cache is
    on. *)
Theorem resume_restores_live_path g l evs
    (tileBlob : Tile) (tileCoords : Coords)
    (templatesArray : option (list Template)) (now : Z) :
  let w := run (moduleLoaded g l) evs in
  originalDrawTemplateOnTile w <> None ->
  (tileRefreshPaused w = true ->
   let w' := snd (toggleTileRefreshPause w) in
   tileRefreshPaused w' = false
   /\ drawTemplateOnTile w' = ResumedWrapper
   /\ smartTileCache w' = smartTileCache w
   /\ frozenTileCache w' = frozenTileCache w
   /\ (cacheHits w', cacheMisses w') = (cacheHits w, cacheMisses w))
  /\ (tileRefreshPaused w = false ->
      (smartTileCacheEnabled w = false
       \/ JsMap.has (generateCacheKey tileCoords templatesArray tileBlob)
            (smartTileCache w) = false) ->
      let w1 := if smartTileCacheEnabled w
                then set_cacheMisses (cacheMisses w + 1) w else w in
      callDraw (drawTemplateOnTile w) tileBlob tileCoords templatesArray now w
      = Awaiting (mkPending (generateCacheKey tileCoords templatesArray tileBlob)
                    tileCoords (callOriginal tileBlob tileCoords w1)) w1).
Proof.
  intros w Ho. split.
  - intros Hp w'.
    destruct (toggleTileRefreshPause_fields w) as (_ & T1 & T2 & T3 & _ & _ & T4 & T5).
    fold w' in T1, T2, T3, T4, T5. rewrite Hp in T1, T5. simpl in T1, T5.
    destruct (originalDrawTemplateOnTile w); [auto|now elim Ho].
  - intros Hp Hmiss w1.
    pose proof (live_slot _ (run_liveOk evs _ (liveOk_moduleLoaded g l))) as Hslot.
    fold w in Hslot. rewrite (Hslot Ho), Hp. simpl. unfold wrapperBegin, w1.
    destruct (smartTileCacheEnabled w) eqn:He; [|reflexivity].
    destruct Hmiss as [Hd|Hh]; [discriminate|].
    unfold getFromSmartCache. rewrite He, Hh. reflexivity.
Qed.

(** X16: in every state a run of the module reaches, initialised, running
    and with the cache on, once a composite has resolved to a blob (at a time
    that no ledger entry exceeds), the same request again is answered with
    that blob from the smart cache: the compositing function is not called,
    one hit is counted, and neither cache's content changes. *)
Theorem repeated_request_is_served_from_cache g l evs
    (tileBlob : Tile) (tileCoords : Coords)
    (templatesArray : option (list Template)) (blob : Blob) (now1 now2 : Z) :
  let w := run (moduleLoaded g l) evs in
  originalDrawTemplateOnTile w <> None ->
  tileRefreshPaused w = false ->
  smartTileCacheEnabled w = true ->
  Forall (fun e => snd e <= now1) (cacheAccessOrder w) ->
  let key := generateCacheKey tileCoords templatesArray tileBlob in
  let w1 := snd (wrapperEnd (mkPending key tileCoords None) (Resolved (Some blob)) now1 w) in
  let d := callDraw (drawTemplateOnTile w1) tileBlob tileCoords templatesArray now2 w1 in
  d = Returned (Some blob) (afterDraw d)
  /\ invokesCompositing d = false
  /\ cacheHits (afterDraw d) = cacheHits w + 1
  /\ cacheMisses (afterDraw d) = cacheMisses w
  /\ smartTileCache (afterDraw d) = smartTileCache w1
  /\ frozenTileCache (afterDraw d) = frozenTileCache w1.
Proof.
  intros w Ho Hp He Hclock key w1 d.
  pose proof (run_liveOk evs _ (liveOk_moduleLoaded g l)) as [Hslot Hc].
  pose proof (run_lruOk evs _ (lruOk_moduleLoaded g l)) as Hok.
  fold w in Hslot, Hc, Hok.
  pose proof (wrapperEnd_stores (mkPending key tileCoords None) (Some blob) now1 w Hp Hc He) as E.
  destruct (storeInSmartCache_get key (Some blob) now1 w He Hok Hclock) as [Hget Hen].
  destruct (storeInSmartCache_switches key (Some blob) now1 w) as (_ & _ & Hh & Hm).
  set (ws := storeInSmartCache key (Some blob) now1 w) in *.
  destruct (storeFrozen_switches tileCoords (Some blob) ws) as (Hs & Hst & _ & _).
  assert (E1 : w1 = storeFrozen tileCoords (Some blob) ws)
    by (unfold w1; rewrite E; reflexivity).
  assert (Hget1 : JsMap.get key (smartTileCache w1) = Some (Some blob))
    by (rewrite E1, Hst; exact Hget).
  assert (Hsw : switches w1 = switches w).
  { rewrite E1, Hs. apply storeInSmartCache_switches. }
  unfold switches in Hsw. injection Hsw as S1 S2 S3 S4 S5 S6 S7 S8.
  assert (Hd : drawTemplateOnTile w1 = ResumedWrapper)
    by (rewrite S5, (Hslot Ho), Hp; reflexivity).
  assert (Hen1 : smartTileCacheEnabled w1 = true) by (rewrite S4; exact He).
  assert (Hcnt : cacheHits w1 = cacheHits w /\ cacheMisses w1 = cacheMisses w).
  { rewrite E1, <- Hh, <- Hm. unfold storeFrozen. clear.
    destruct ws; simpl. split_ifs; auto. }
  unfold d. rewrite Hd. simpl. unfold wrapperBegin. rewrite Hen1.
  fold key. rewrite (getFromSmartCache_hit key (Some blob) now2 w1 Hen1 Hget1).
  simpl. destruct Hcnt as [Hc1 Hc2].
  destruct w1; simpl in *. subst. repeat split; reflexivity.
Qed.

(** ** Invalidation *)

(** X17: in every state a run of the module reaches, an invalidation for a
    settings change leaves the smart cache and its ledger empty and the
    frozen cache, the pause flag and the cache switch untouched; when there
    was nothing to clear it changes nothing at all.  A pause toggle followed
    by the invalidation that its save schedules therefore empties the smart
    cache and keeps the frozen cache. *)
Theorem invalidation_empties_smart_cache g l evs :
  let w := run (moduleLoaded g l) evs in
  let w' := invalidateCacheForSettingsChange w in
  smartTileCache w' = [] /\ cacheAccessOrder w' = []
  /\ frozenTileCache w' = frozenTileCache w
  /\ tileRefreshPaused w' = tileRefreshPaused w
  /\ smartTileCacheEnabled w' = smartTileCacheEnabled w
  /\ (smartTileCache w = [] -> w' = w)
  /\ smartTileCache (step (step w EvTogglePause) EvInvalidate) = []
  /\ frozenTileCache (step (step w EvTogglePause) EvInvalidate) = frozenTileCache w.
Proof.
  intros w w'.
  assert (Hgen : forall evs',
             let u := run (moduleLoaded g l) evs' in
             let u' := invalidateCacheForSettingsChange u in
             smartTileCache u' = [] /\ cacheAccessOrder u' = []
             /\ frozenTileCache u' = frozenTileCache u
             /\ tileRefreshPaused u' = tileRefreshPaused u
             /\ smartTileCacheEnabled u' = smartTileCacheEnabled u
             /\ (smartTileCache u = [] -> u' = u)).
  { intros evs' u u'.
    pose proof (run_switchOk evs' _ (switchOk_moduleLoaded g l)) as Hsw.
    pose proof (run_lruOk evs' _ (lruOk_moduleLoaded g l)) as Hlru.
    fold u in Hsw, Hlru.
    assert (Hempty : smartTileCache u = [] -> cacheAccessOrder u = []).
    { intros Hs. pose proof (lru_keys _ Hlru) as Hk. rewrite Hs in Hk.
      destruct (cacheAccessOrder u); [reflexivity|discriminate]. }
    unfold u', invalidateCacheForSettingsChange.
    destruct (smartTileCacheEnabled u) eqn:He; simpl.
    - destruct (Z.ltb_spec 0 (JsMap.size (smartTileCache u))) as [Hpos|Hzero].
      + destruct (clearSmartTileCache_switches u) as (Hs & Hf & Hc & Ha).
        unfold switches in Hs. injection Hs as E1 E2 E3 E4 E5 E6 E7 E8.
        split; [exact Hc|]. split; [exact Ha|]. split; [exact Hf|].
        split; [exact E1|]. split; [now rewrite E4|].
        intros Hnil. rewrite Hnil in Hpos.
        unfold JsMap.size in Hpos. simpl in Hpos. lia.
      + assert (Hnil : smartTileCache u = []).
        { unfold JsMap.size in Hzero. destruct (smartTileCache u); [reflexivity|].
          simpl in Hzero. lia. }
        split; [exact Hnil|]. split; [exact (Hempty Hnil)|]. auto.
    - pose proof (sw_off _ Hsw He) as Hnil.
      split; [exact Hnil|]. split; [exact (Hempty Hnil)|]. auto. }
  destruct (Hgen evs) as (H1 & H2 & H3 & H4 & H5 & H6).
  fold w in H1, H2, H3, H4, H5, H6. fold w' in H1, H2, H3, H4, H5, H6.
  split; [exact H1|]. split; [exact H2|]. split; [exact H3|]. split; [exact H4|].
  split; [exact H5|]. split; [exact H6|]. split.
  - destruct (Hgen (evs ++ [EvTogglePause])) as (G1 & _).
    unfold run in G1. rewrite fold_left_app in G1. exact G1.
  - destruct (Hgen (evs ++ [EvTogglePause])) as (_ & _ & G3 & _).
    unfold run in G3. rewrite fold_left_app in G3. simpl in G3.
    change (fold_left step evs (moduleLoaded g l)) with w in G3.
    simpl. rewrite G3. apply (toggleTileRefreshPause_fields w).
Qed.

(** ** Counting accesses *)

(** X18: a draw request is counted exactly when the installed function
    looks it up in the smart cache: then one hit is added if the key is
    present and one miss if it is not, and nothing otherwise; the settling
    of a compositing call never changes the counters. *)
Theorem draw_counts_one_access (w : World)
    (tileBlob : Tile) (tileCoords : Coords)
    (templatesArray : option (list Template)) (now : Z) :
  let key := generateCacheKey tileCoords templatesArray tileBlob in
  let present := JsMap.has key (smartTileCache w) in
  let w' := step w (EvDraw tileBlob tileCoords templatesArray now) in
  cacheHits w' = cacheHits w + (if probes w && present then 1 else 0)
  /\ cacheMisses w' = cacheMisses w + (if probes w && negb present then 1 else 0)
  /\ (forall i o now',
        cacheHits (step w (EvSettle i o now')) = cacheHits w
        /\ cacheMisses (step w (EvSettle i o now')) = cacheMisses w).
Proof.
  intros key present w'. split; [|split].
  - unfold w', probes, present, key. simpl. unfold callDraw, wrapperBegin, getFromSmartCache.
    destruct w as [p ? ? ? e s ? h m ? d ? ? ?]; simpl.
    destruct d, e, p; simpl; try lia;
      destruct (JsMap.has _ s); simpl; try lia;
      destruct (truthy _); simpl; lia.
  - unfold w', probes, present, key. simpl. unfold callDraw, wrapperBegin, getFromSmartCache.
    destruct w as [p ? ? ? e s ? h m ? d ? ? ?]; simpl.
    destruct d, e, p; simpl; try lia;
      destruct (JsMap.has _ s); simpl; try lia;
      destruct (truthy _); simpl; lia.
  - intros i o now'. simpl.
    destruct (nth_error (inflight w) i) as [p|]; [|split; reflexivity].
    unfold wrapperEnd.
    destruct (match p_settled p with Some o' => o' | None => o end) as [r|reason];
      [|destruct w; split; reflexivity].
    destruct (_ && _); [|destruct w; split; reflexivity]. simpl.
    match goal with |- context [storeInSmartCache ?k ?v ?n ?x] =>
      destruct (storeInSmartCache_switches k v n x) as (_ & _ & Hh & Hm);
      set (ws := storeInSmartCache k v n x) in * end.
    assert (Hf : cacheHits (storeFrozen (p_tileCoords p) r ws) = cacheHits ws
                 /\ cacheMisses (storeFrozen (p_tileCoords p) r ws) = cacheMisses ws).
    { unfold storeFrozen. destruct ws; simpl. split_ifs; auto. }
    destruct Hf as [-> ->]. rewrite Hh, Hm. destruct w; split; reflexivity.
Qed.

(** ** Entries that survive an eviction *)

Lemma NoDup_entries {V : Type} (m : list (string * V)) :
  NoDup (JsMap.keys m) -> NoDup m.
Proof. apply NoDup_map_inv. Qed.

(** X19: an entry survives an eviction whenever at least as many ledger
    entries were accessed strictly before it as the eviction removes
    (the size minus [maxCacheSize] plus 10). *)
Theorem recent_entry_survives_eviction (w : World) (k : string) (t : Z) :
  ledgerMatches w ->
  NoDup (JsMap.keys (smartTileCache w)) ->
  maxCacheSize < JsMap.size (smartTileCache w) ->
  JsMap.get k (cacheAccessOrder w) = Some t ->
  JsMap.size (smartTileCache w) - maxCacheSize + 10
  <= Z.of_nat (List.length (olderThan t (cacheAccessOrder w))) ->
  JsMap.has k (smartTileCache (evictLRUEntries w)) = true.
Proof.
  intros Hm Hnd Hsz Hget Hcount.
  destruct (JsMap.has k (smartTileCache (evictLRUEntries w))) eqn:Hhas; [reflexivity|].
  exfalso.
  rewrite evictLRUEntries_closed in Hhas.
  destruct (Z.leb_spec (JsMap.size (smartTileCache w)) maxCacheSize); [lia|].
  assert (Hst : JsMap.has k (removeKeys (evictedKeys w) (smartTileCache w)) = false)
    by (destruct w; exact Hhas).
  clear Hhas. rewrite removeKeys_filter, has_filter_kept in Hst.
  pose proof (get_In _ _ _ Hget) as Hin.
  assert (Hk : JsMap.has k (smartTileCache w) = true).
  { apply has_iff_in. rewrite Hm. change k with (fst (k, t)). now apply in_map. }
  rewrite Hk, andb_true_r in Hst. apply keptKey_false_in in Hst.
  unfold evictedKeys, slice0 in Hst.
  set (n := JsMap.size (smartTileCache w) - maxCacheSize + 10) in *.
  destruct (Z.ltb_spec n 0) as [Hneg|_]; [unfold maxCacheSize in *; lia|].
  set (sorted := sortByTime (cacheAccessOrder w)) in *.
  pose proof (sortByTime_perm (cacheAccessOrder w)) as Hp. fold sorted in Hp.
  assert (Hnda : NoDup (JsMap.keys (cacheAccessOrder w))) by (now rewrite <- Hm).
  assert (Hnds : NoDup (JsMap.keys sorted)).
  { eapply Permutation_NoDup; [symmetry; apply Permutation_map; exact Hp|exact Hnda]. }
  pose proof (sortByTime_StronglySorted (cacheAccessOrder w)) as Hs. fold sorted in Hs.
  rewrite <- (firstn_skipn (Z.to_nat n) sorted) in Hs.
  assert (F1 : In (k, t) (firstn (Z.to_nat n) sorted)).
  { apply In_keys_entry in Hst. destruct Hst as [t' K1].
    pose proof (firstn_incl _ _ _ K1) as K1'.
    apply (In_get _ _ _ Hnds) in K1'.
    assert (S1 : In (k, t) sorted) by (eapply Permutation_in; [symmetry|]; eauto).
    apply (In_get _ _ _ Hnds) in S1. assert (t' = t) by congruence. now subst. }
  assert (Hincl : incl ((k, t) :: olderThan t (cacheAccessOrder w))
                    (firstn (Z.to_nat n) sorted)).
  { intros e [<-|He]; [exact F1|].
    unfold olderThan in He. apply filter_In in He. destruct He as [He Holder].
    apply Z.ltb_lt in Holder.
    assert (S2 : In e sorted) by (eapply Permutation_in; [symmetry|]; eauto).
    rewrite <- (firstn_skipn (Z.to_nat n) sorted) in S2.
    apply in_app_or in S2. destruct S2 as [S2|S2]; [exact S2|].
    pose proof (StronglySorted_app_le byTime _ _ _ _ Hs F1 S2) as Hle.
    unfold byTime in Hle. simpl in Hle. lia. }
  assert (Hnd' : NoDup ((k, t) :: olderThan t (cacheAccessOrder w))).
  { constructor.
    - unfold olderThan. intros He. apply filter_In in He. destruct He as [_ He].
      simpl in He. apply Z.ltb_lt in He. lia.
    - apply NoDup_filter. now apply NoDup_entries. }
  pose proof (NoDup_incl_length Hnd' Hincl) as Hlen.
  rewrite length_firstn in Hlen. simpl in Hlen. lia.
Qed.

(** ** Puts that do not overflow *)

Lemma get_set_other {V : Type} k k' (v : V) (m : list (string * V)) :
  k' <> k -> JsMap.get k' (JsMap.set k v m) = JsMap.get k' m.
Proof.
  intros Hne. induction m as [|[k0 v0] m IH]; simpl.
  - destruct (String.eqb_spec k k'); [congruence|reflexivity].
  - destruct (String.eqb_spec k0 k) as [->|H0]; simpl.
    + destruct (String.eqb_spec k k'); [congruence|reflexivity].
    + destruct (String.eqb k0 k'); [reflexivity|exact IH].
Qed.

(** X20: in every state a run of the module reaches with the cache on, a
    put of a key that is already cached, or into a cache of fewer than
    [maxCacheSize] entries, evicts nothing: the cache is the old one with
    the key set, every other key keeps its value, and the ledger is the old
    one with the key stamped with the time of the put. *)
Theorem put_without_overflow_keeps_entries g l evs (k : string) (v : Tile) (now : Z) :
  let w := run (moduleLoaded g l) evs in
  smartTileCacheEnabled w = true ->
  (JsMap.has k (smartTileCache w) = true
   \/ JsMap.size (smartTileCache w) < maxCacheSize) ->
  let w' := storeInSmartCache k v now w in
  smartTileCache w' = JsMap.set k v (smartTileCache w)
  /\ cacheAccessOrder w' = JsMap.set k now (cacheAccessOrder w)
  /\ JsMap.get k (smartTileCache w') = Some v
  /\ (forall k', k' <> k ->
        JsMap.get k' (smartTileCache w') = JsMap.get k' (smartTileCache w)).
Proof.
  intros w Hen Hroom w'.
  pose proof (run_lruOk evs _ (lruOk_moduleLoaded g l)) as [Hk Hnd Hsz].
  fold w in Hk, Hnd, Hsz.
  destruct (storeInSmartCache_unfold k v now w Hen) as (E1 & E2 & _).
  fold w' in E1, E2.
  assert (Hfit : JsMap.size (JsMap.set k v (smartTileCache w)) <= maxCacheSize).
  { unfold JsMap.size in *. destruct Hroom as [Hhas|Hlt].
    - now rewrite (length_set_present _ _ _ Hhas).
    - pose proof (length_set_le k v (smartTileCache w)). lia. }
  rewrite evictLRUEntries_closed in E1, E2.
  assert (S1 : smartTileCache w' = JsMap.set k v (smartTileCache w)).
  { rewrite E1. destruct w; simpl in *.
    destruct (Z.leb_spec (JsMap.size (JsMap.set k v smartTileCache0)) maxCacheSize);
      [reflexivity|lia]. }
  assert (S2 : cacheAccessOrder w' = JsMap.set k now (cacheAccessOrder w)).
  { rewrite E2. destruct w; simpl in *.
    destruct (Z.leb_spec (JsMap.size (JsMap.set k v smartTileCache0)) maxCacheSize);
      [reflexivity|lia]. }
  split; [exact S1|]. split; [exact S2|]. rewrite S1. split.
  - apply get_set_same.
  - intros k' Hne. now apply get_set_other.
Qed.

(** ** Restarting *)

Lemma storeInSmartCache_ls_paused k v now w :
  ls_bmTileRefreshPaused (localStorage (storeInSmartCache k v now w))
  = ls_bmTileRefreshPaused (localStorage w).
Proof.
  unfold storeInSmartCache, saveCacheStatistics, updateCacheAccess.
  destruct (smartTileCacheEnabled w); simpl; [|reflexivity].
  rewrite evictLRUEntries_closed. destruct w; simpl.
  destruct (JsMap.size _ <=? maxCacheSize); simpl;
    destruct (Z.rem _ _ =? 0); reflexivity.
Qed.

Lemma step_storage_paused w ev :
  getTileRefreshPaused (step w ev)
  = match ev with
    | EvTogglePause => negb (tileRefreshPaused w)
    | _ => getTileRefreshPaused w
    end.
Proof.
  destruct ev; simpl.
  - unfold initializeTileRefreshPause.
    destruct (initializeSmartTileCache_fields w)
      as (_ & _ & _ & _ & _ & _ & Fg & Flp & _).
    assert (Hg : getTileRefreshPaused (initializeSmartTileCache w) = getTileRefreshPaused w)
      by (unfold getTileRefreshPaused; now rewrite Fg, Flp).
    rewrite <- Hg. set (w1 := initializeSmartTileCache w). clearbody w1.
    unfold applyTileRefreshPause, getTileRefreshPaused.
    destruct w1 as [? [fn|] ? ? ? ? ? ? ? ? ? [[[[|]|] ?]|] [[[|]|] ? ? ?] ?];
      reflexivity.
  - unfold toggleTileRefreshPause, applyTileRefreshPause, saveTileRefreshPaused,
      getTileRefreshPaused.
    destruct w as [[|] [fn|] ? ? ? ? ? ? ? ? ? [[? ?]|] [? ? ? ?] ?]; reflexivity.
  - unfold toggleSmartTileCache, saveSmartTileCacheEnabled, clearSmartTileCache,
      saveCacheStatistics, getTileRefreshPaused.
    destruct w as [? ? ? ? [|] ? ? ? ? ? ? [[? ?]|] [? ? ? ?] ?]; reflexivity.
  - unfold invalidateCacheForSettingsChange.
    destruct (_ && _); [|reflexivity].
    unfold clearSmartTileCache, saveCacheStatistics, getTileRefreshPaused.
    destruct w as [? ? ? ? ? ? ? ? ? ? ? [[? ?]|] [? ? ? ?] ?]; reflexivity.
  - destruct w; reflexivity.
  - destruct w; reflexivity.
  - destruct (callDraw_switches (drawTemplateOnTile w) tileBlob tileCoords
                templatesArray now w) as (Hs & _ & _ & Hl).
    unfold switches in Hs. injection Hs as _ _ _ _ _ E6 _ _.
    assert (H : getTileRefreshPaused
                  (afterDraw (callDraw (drawTemplateOnTile w) tileBlob tileCoords
                                templatesArray now w))
                = getTileRefreshPaused w)
      by (unfold getTileRefreshPaused; now rewrite E6, Hl).
    destruct (callDraw _ _ _ _ _ _) as [r w'|p w'|w']; simpl in *; auto.
    destruct w'; exact H.
  - destruct (nth_error (inflight w) i) as [p|]; [|reflexivity].
    unfold wrapperEnd.
    destruct (match p_settled p with Some o' => o' | None => o end) as [r|reason];
      [|destruct w; reflexivity].
    destruct (_ && _); [|destruct w; reflexivity]. simpl.
    match goal with |- context [storeInSmartCache ?k ?v ?n ?x] =>
      pose proof (storeInSmartCache_ls_paused k v n x) as Hl;
      destruct (storeInSmartCache_switches k v n x) as (Hs & _);
      set (ws := storeInSmartCache k v n x) in * end.
    destruct (storeFrozen_switches (p_tileCoords p) r ws) as (Hs' & _ & _ & Hl').
    unfold switches in Hs, Hs'.
    injection Hs as _ _ _ _ _ E6 _ _. injection Hs' as _ _ _ _ _ E6' _ _.
    unfold getTileRefreshPaused. rewrite E6', Hl', E6, Hl.
    destruct w; reflexivity.
Qed.

(** Once initialised, both stored settings agree with the flags. *)
Lemma run_settings_agree g l evs :
  let w := run (moduleLoaded g l) evs in
  originalDrawTemplateOnTile w <> None ->
  getTileRefreshPaused w = tileRefreshPaused w
  /\ getSmartTileCacheEnabled w = smartTileCacheEnabled w.
Proof.
  intros w Ho. split;
    [|exact (sw_saved _ (run_switchOk evs _ (switchOk_moduleLoaded g l)) Ho)].
  revert Ho. unfold w. clear w.
  induction evs as [|ev evs IH] using rev_ind; [intros Ho; now elim Ho|].
  unfold run in *. rewrite fold_left_app. simpl.
  set (w := fold_left step evs (moduleLoaded g l)) in *.
  rewrite step_storage_paused. destruct (step_control w ev) as (_ & H).
  destruct ev; destruct H as (Ep & Eo & _); rewrite Ep, Eo; auto.
Qed.

(** X21: when the page is restarted from an initialised state, the pause
    flag and the cache switch come back as they were, both caches come back
    empty, and the slot holds the function that fits the pause flag; so
    after a restart while paused every draw returns its input blob unchanged
    until the pause is toggled off. *)
Theorem restart_restores_flags_not_caches g l evs
    (tileBlob : Tile) (tileCoords : Coords)
    (templatesArray : option (list Template)) (now : Z) :
  let w := run (moduleLoaded g l) evs in
  originalDrawTemplateOnTile w <> None ->
  let w' := restarted w in
  tileRefreshPaused w' = tileRefreshPaused w
  /\ smartTileCacheEnabled w' = smartTileCacheEnabled w
  /\ smartTileCache w' = [] /\ cacheAccessOrder w' = [] /\ frozenTileCache w' = []
  /\ drawTemplateOnTile w'
     = (if tileRefreshPaused w then PausedDraw else ResumedWrapper)
  /\ (tileRefreshPaused w = true ->
      callDraw (drawTemplateOnTile w') tileBlob tileCoords templatesArray now w'
      = Returned tileBlob w').
Proof.
  intros w Ho w'.
  destruct (run_settings_agree g l evs Ho) as [Hp He]. fold w in Hp, He.
  set (w0 := moduleLoaded (gmStorage w) (localStorage w)).
  assert (Hp0 : getTileRefreshPaused w0 = tileRefreshPaused w) by (rewrite <- Hp; reflexivity).
  assert (He0 : getSmartTileCacheEnabled w0 = smartTileCacheEnabled w)
    by (rewrite <- He; reflexivity).
  destruct (step_control w0 EvInitialize) as (_ & Cp & _ & Cd).
  change (step w0 EvInitialize) with w' in Cp, Cd. rewrite Hp0 in Cp, Cd.
  assert (Hcaches : smartTileCacheEnabled w' = smartTileCacheEnabled w
                    /\ smartTileCache w' = [] /\ cacheAccessOrder w' = []
                    /\ frozenTileCache w' = []).
  { unfold w', restarted. fold w0. unfold initializeTileRefreshPause.
    destruct (initializeSmartTileCache_settled w0) as (_ & Hen & _).
    rewrite He0 in Hen.
    assert (Hst : smartTileCache (initializeSmartTileCache w0) = []
                  /\ cacheAccessOrder (initializeSmartTileCache w0) = []
                  /\ frozenTileCache (initializeSmartTileCache w0) = []).
    { unfold initializeSmartTileCache, clearSmartTileCache, saveCacheStatistics, w0.
      destruct (localStorage w) as [? ? ? [v|]]; simpl;
        [destruct (String.eqb v cacheVersion)|]; simpl; auto. }
    set (w1 := initializeSmartTileCache w0) in *. clearbody w1.
    unfold applyTileRefreshPause.
    destruct w1 as [? [fn|] ? ? ? ? ? ? ? ? ? ? ? ?]; simpl in *;
      match goal with |- context [if ?c then _ else _] => destruct c end;
      simpl; tauto. }
  destruct Hcaches as (H1 & H2 & H3 & H4).
  repeat split; auto.
  intros Hpaused. rewrite Cd, Hpaused. simpl.
  rewrite pausedDraw_lookup, H4. reflexivity.
Qed.

(** ** Instances of the further properties *)

Lemma Forall_ltb (now : Z) (l : list (string * Z)) :
  forallb (fun e => now <? snd e) l = true -> Forall (fun e => now < snd e) l.
Proof.
  intros H. apply Forall_forall. intros e He. apply Z.ltb_lt.
  revert e He. now apply forallb_forall.
Defined.

Lemma Forall_leb (now : Z) (l : list (string * Z)) :
  forallb (fun e => snd e <=? now) l = true -> Forall (fun e => snd e <= now) l.
Proof.
  intros H. apply Forall_forall. intros e He. apply Z.leb_le.
  revert e He. now apply forallb_forall.
Defined.

Lemma coordsKey_witness :
  coordsKey (CoordsArray 12 7) = "0012,0007"%string
  /\ (12 = 12 /\ 7 = 7).
Proof.
  split; [reflexivity|].
  exact (proj1 (coordsKey_array_injective 12 7 12 7) eq_refl).
Defined.

Lemma key_separates_payloads_witness :
  generateCacheKey (CoordsArray 12 7) None (Some (mkBlob 100 "image/png" 0))
  <> generateCacheKey (CoordsArray 12 7) None None.
Proof.
  refine (proj2 (key_separates_payloads (CoordsArray 12 7) None
                   (mkBlob 100 "image/png" 0) (mkBlob 200 "image/png" 0) _ _));
    discriminate.
Defined.

Lemma eviction_witness :
  ledgerMatches overfullWorld
  /\ NoDup (JsMap.keys (smartTileCache overfullWorld))
  /\ maxCacheSize < JsMap.size (smartTileCache overfullWorld)
  /\ JsMap.size (smartTileCache (evictLRUEntries overfullWorld)) = 490.
Proof.
  assert (Hm : ledgerMatches overfullWorld) by (vm_compute; reflexivity).
  assert (Hnd : NoDup (JsMap.keys (smartTileCache overfullWorld)))
    by (apply distinctKeys_sound; vm_compute; reflexivity).
  assert (Hsz : maxCacheSize < JsMap.size (smartTileCache overfullWorld))
    by (vm_compute; reflexivity).
  split; [exact Hm|]. split; [exact Hnd|]. split; [exact Hsz|].
  exact (proj1 (eviction_takes_oldest overfullWorld Hm Hnd Hsz)).
Defined.

Lemma recent_entry_witness :
  JsMap.get "late" (cacheAccessOrder overfullWorld) = Some 2000
  /\ JsMap.has "late" (smartTileCache (evictLRUEntries overfullWorld)) = true.
Proof.
  split; [vm_compute; reflexivity|].
  apply (recent_entry_survives_eviction overfullWorld "late" 2000).
  - vm_compute; reflexivity.
  - apply distinctKeys_sound; vm_compute; reflexivity.
  - vm_compute; reflexivity.
  - vm_compute; reflexivity.
  - vm_compute. discriminate.
Defined.

Lemma put_then_get_witness :
  let w := run (moduleLoaded None emptyLocalStorage) pausedRun in
  smartTileCacheEnabled w = true
  /\ fst (getFromSmartCache "k" 3001 (storeInSmartCache "k" sampleComposite 3000 w))
     = sampleComposite.
Proof.
  split; [reflexivity|].
  refine (proj1 (put_then_get_returns_tile None emptyLocalStorage pausedRun
                   "k"%string sampleComposite 3000 3001 eq_refl _)).
  apply Forall_leb. vm_compute; reflexivity.
Defined.

Lemma stale_put_witness :
  let w := run (moduleLoaded None emptyLocalStorage) fullRun in
  JsMap.size (smartTileCache w) = 500
  /\ JsMap.has "stale" (smartTileCache (storeInSmartCache "stale" sampleComposite 1000 w))
     = false.
Proof.
  split; [vm_compute; reflexivity|].
  refine (proj1 (stale_put_is_evicted_at_once None emptyLocalStorage fullRun
                   "stale"%string sampleComposite 1000 1002 _ _ _ _)).
  - vm_compute; reflexivity.
  - vm_compute; reflexivity.
  - vm_compute; reflexivity.
  - apply Forall_ltb. vm_compute; reflexivity.
Defined.

Lemma initialize_version_witness :
  let w := moduleLoaded None (mkLS None None (Some (3, 4)) (Some cacheVersion)) in
  let old := moduleLoaded None (mkLS None None (Some (3, 4)) (Some "0.9"%string)) in
  (cacheHits (initializeSmartTileCache w), cacheMisses (initializeSmartTileCache w))
  = (3, 4)
  /\ cacheHits (initializeSmartTileCache old) = 0.
Proof.
  split.
  - exact (proj1 (proj2 (proj2 (proj1 (proj2 (proj2 (proj2
             (initialize_checks_version
                (moduleLoaded None (mkLS None None (Some (3, 4)) (Some cacheVersion)))))))
             eq_refl)))).
  - refine (proj1 (proj2 (proj2 (proj2 (proj2 (proj2 (proj2
             (initialize_checks_version
                (moduleLoaded None (mkLS None None (Some (3, 4)) (Some "0.9"%string)))))))
             _)))).
    discriminate.
Defined.

Lemma captured_function_witness :
  let w := run (moduleLoaded None emptyLocalStorage) pausedRun in
  originalDrawTemplateOnTile w = Some HostDraw
  /\ originalDrawTemplateOnTile (step w EvInitialize) = Some HostDraw.
Proof.
  split; [reflexivity|].
  exact (proj1 captured_function_is_stable
           (run (moduleLoaded None emptyLocalStorage) pausedRun)
           EvInitialize HostDraw eq_refl).
Defined.

Lemma pause_before_initialize_witness :
  let w := run (moduleLoaded None emptyLocalStorage)
             [EvTogglePause; EvTogglePause; EvInitialize] in
  tileRefreshPaused w = false
  /\ originalDrawTemplateOnTile w = Some PausedDraw
  /\ match callDraw (drawTemplateOnTile w) sampleBlob (CoordsArray 12 7) None 0 w with
     | Awaiting p _ => p_settled p = Some (Resolved sampleBlob)
     | _ => False
     end.
Proof.
  split; [reflexivity|]. split; [reflexivity|].
  exact (proj2 (pause_before_initialize_hides_host None emptyLocalStorage
                  [EvTogglePause; EvInitialize] sampleBlob (CoordsArray 12 7) None 0)).
Defined.

Lemma frozen_snapshot_witness :
  let w := run (moduleLoaded None emptyLocalStorage) [EvInitialize] in
  let p := mkPending "k" (CoordsArray 12 7) None in
  let w2 := snd (toggleTileRefreshPause
                   (snd (wrapperEnd p (Resolved sampleComposite) 1001 w))) in
  tileRefreshPaused w = false /\ smartTileCacheEnabled w = true
  /\ callDraw (drawTemplateOnTile w2) sampleBlob (CoordsArray 12 7) None 2000 w2
     = Returned sampleComposite w2.
Proof.
  split; [reflexivity|]. split; [reflexivity|].
  exact (proj2 (proj2 (proj2
    (frozen_snapshot_round_trip None emptyLocalStorage [EvInitialize]
       (mkPending "k" (CoordsArray 12 7) None) sampleComposite 1001 2000
       sampleBlob None eq_refl eq_refl)))).
Defined.

Lemma pause_freezes_witness :
  let w := run (moduleLoaded None emptyLocalStorage) pausedRun in
  tileRefreshPaused w = true
  /\ frozenTileCache (step w (EvDraw sampleBlob (CoordsArray 1 1) None 3000))
     = frozenTileCache w.
Proof.
  split; [reflexivity|].
  exact (proj1 (proj2 (proj2
    (pause_freezes_all_caches None emptyLocalStorage pausedRun
       (EvDraw sampleBlob (CoordsArray 1 1) None 3000) eq_refl)))).
Defined.

Lemma disabled_cache_witness :
  let w := run (moduleLoaded None emptyLocalStorage)
             (inflightRun ++ [EvToggleCache]) in
  smartTileCacheEnabled w = false
  /\ List.length (inflight w) = 1%nat
  /\ frozenTileCache (step w (EvSettle 0 (Resolved sampleComposite) 1001)) = [].
Proof.
  split; [reflexivity|]. split; [reflexivity|].
  exact (proj1 (proj2 (proj2 (proj2
    (disabled_cache_takes_no_snapshot
       (run (moduleLoaded None emptyLocalStorage) (inflightRun ++ [EvToggleCache]))
       (EvSettle 0 (Resolved sampleComposite) 1001) eq_refl))))).
Defined.

Lemma cleared_frozen_witness :
  let w := run (moduleLoaded None emptyLocalStorage) pausedRun in
  tileRefreshPaused w = true
  /\ getCachedTileCount w = 1
  /\ getCachedTileCount (clearFrozenTileCache w) = 0.
Proof.
  split; [reflexivity|]. split; [reflexivity|].
  exact (proj1 (cleared_frozen_cache_returns_input None emptyLocalStorage pausedRun
                  sampleBlob (CoordsArray 12 7) None 3000 eq_refl)).
Defined.

Lemma resume_witness :
  let w := run (moduleLoaded None emptyLocalStorage) pausedRun in
  originalDrawTemplateOnTile w <> None
  /\ tileRefreshPaused w = true
  /\ drawTemplateOnTile (snd (toggleTileRefreshPause w)) = ResumedWrapper.
Proof.
  split; [discriminate|]. split; [reflexivity|].
  refine (proj1 (proj2 (proj1
    (resume_restores_live_path None emptyLocalStorage pausedRun
       sampleBlob (CoordsArray 12 7) None 3000 _) eq_refl))).
  discriminate.
Defined.

Lemma repeated_request_witness :
  let w := run (moduleLoaded None emptyLocalStorage) [EvInitialize] in
  let key := generateCacheKey (CoordsArray 12 7) None sampleBlob in
  let w1 := snd (wrapperEnd (mkPending key (CoordsArray 12 7) None)
                   (Resolved (Some (mkBlob 180 "image/png" 7))) 1001 w) in
  tileRefreshPaused w = false /\ smartTileCacheEnabled w = true
  /\ invokesCompositing
       (callDraw (drawTemplateOnTile w1) sampleBlob (CoordsArray 12 7) None 2000 w1)
     = false.
Proof.
  split; [reflexivity|]. split; [reflexivity|].
  refine (proj1 (proj2
    (repeated_request_is_served_from_cache None emptyLocalStorage [EvInitialize]
       sampleBlob (CoordsArray 12 7) None (mkBlob 180 "image/png" 7) 1001 2000
       _ eq_refl eq_refl _))).
  - discriminate.
  - constructor.
Defined.

Lemma invalidation_witness :
  let w := run (moduleLoaded None emptyLocalStorage) [EvInitialize] in
  smartTileCache w = []
  /\ invalidateCacheForSettingsChange w = w.
Proof.
  split; [reflexivity|].
  exact (proj1 (proj2 (proj2 (proj2 (proj2 (proj2
    (invalidation_empties_smart_cache None emptyLocalStorage [EvInitialize]))))))
    eq_refl).
Defined.

Lemma put_without_overflow_witness :
  let w := run (moduleLoaded None emptyLocalStorage) pausedRun in
  smartTileCacheEnabled w = true
  /\ JsMap.size (smartTileCache w) < maxCacheSize
  /\ JsMap.get "k" (smartTileCache (storeInSmartCache "k" sampleComposite 3000 w))
     = Some sampleComposite.
Proof.
  split; [reflexivity|]. split; [reflexivity|].
  refine (proj1 (proj2 (proj2
    (put_without_overflow_keeps_entries None emptyLocalStorage pausedRun
       "k"%string sampleComposite 3000 eq_refl _)))).
  right. reflexivity.
Defined.

Lemma restart_witness :
  let w := run (moduleLoaded None emptyLocalStorage) pausedRun in
  originalDrawTemplateOnTile w <> None
  /\ tileRefreshPaused w = true
  /\ frozenTileCache w <> []
  /\ tileRefreshPaused (restarted w) = true
  /\ frozenTileCache (restarted w) = [].
Proof.
  split; [discriminate|]. split; [reflexivity|]. split; [discriminate|].
  assert (Ho : originalDrawTemplateOnTile
                 (run (moduleLoaded None emptyLocalStorage) pausedRun) <> None)
    by discriminate.
  destruct (restart_restores_flags_not_caches None emptyLocalStorage pausedRun
              sampleBlob (CoordsArray 12 7) None 0 Ho) as (H1 & _ & _ & _ & H5 & _).
  split; [exact H1|exact H5].
Defined.
